(** * TaskSet_CopyMemory: the parallel memory copy of MMCore

    A shallow embedding of [MMCore/TaskSet_CopyMemory.cpp] and the
    properties its design document states about it.

    - [size_t] values are integers in [0, 2^64) with the wrap-around of
      every addition, subtraction and multiplication written out.
    - The address space is a total map from addresses to bytes;
      [std::memcpy] on overlapping ranges is undefined behaviour and is an
      error of the model.
    - The task objects are owned by the task set and referenced by the pool
      through their slot number, so a queued task reads the fields its slot
      holds when it runs, not those it held when it was submitted.
    - Worker threads are sequentialised: a task body is one atomic step and
      the order in which queued tasks run is chosen by a scheduler oracle.
      The owner thread only yields at its one suspension point, the
      semaphore wait. *)

From Stdlib Require Import ZArith Lia.
From Stdlib.Strings Require Import Byte.
From Stdlib Require String.
Import String.StringSyntax.
Delimit Scope string_scope with string.
From stdpp Require Import base tactics option list numbers.

Open Scope Z_scope.

(** ** Errors *)

Inductive error : Set :=
| AssertionFailed      (* an [assert] of the source does not hold *)
| UndefinedBehaviour   (* [memcpy] on overlapping ranges, dangling task *)
| Deadlock.            (* the owner waits for signals nobody will send *)

Inductive result (A : Type) : Type :=
| OK (a : A)
| Err (e : error).
Arguments OK {A} a.
Arguments Err {A} e.

Definition bind {A B : Type} (r : result A) (k : A -> result B) : result B :=
  match r with
  | OK a => k a
  | Err e => Err e
  end.

Notation "'do' x <- r ; k" := (bind r (fun x => k))
  (at level 10, x pattern, r at level 100, k at level 200).

Definition assert (b : bool) : result unit :=
  if b then OK tt else Err AssertionFailed.

(** ** [size_t] *)

Module SizeT.

Definition modulus : Z := 2 ^ 64.

Definition wrap (z : Z) : Z := z mod modulus.

Definition in_range (z : Z) : Prop := 0 <= z < modulus.

Definition add (a b : Z) : Z := wrap (a + b).
Definition sub (a b : Z) : Z := wrap (a - b).
Definition mul (a b : Z) : Z := wrap (a * b).

End SizeT.

(** ** Memory and [std::memcpy] *)

Module Memory.

Definition ptr : Type := Z.
Definition NULL : ptr := 0.

Definition mem : Type := ptr -> byte.

(** [d .. d+n) and [s .. s+n) share an address. *)
Definition overlap (d s : ptr) (n : Z) : bool :=
  (0 <? n) && (d <? s + n) && (s <? d + n).

Definition in_block (d : ptr) (n : Z) (a : ptr) : bool :=
  (d <=? a) && (a <? d + n).

Definition memcpy (m : mem) (d s : ptr) (n : Z) : result mem :=
  if overlap d s n then Err UndefinedBehaviour
  else OK (fun a => if in_block d n a then m (s + (a - d)) else m a).

(** A copy loop that moves one byte after the other, lowest address
    first: what a single thread copying [n] bytes does. *)
Definition store (m : mem) (a : ptr) (b : byte) : mem :=
  fun a' => if a' =? a then b else m a'.

Fixpoint copy_bytes (n : nat) (d s : ptr) (m : mem) : mem :=
  match n with
  | O => m
  | S k =>
      let m' := copy_bytes k d s m in
      store m' (d + Z.of_nat k) (m' (s + Z.of_nat k))
  end.

End Memory.

Import Memory.

(** ** [TaskSet_CopyMemory::ATask] *)

Module ATask.

(** The fields [taskIndex_], [totalTaskCount_] and [usedTaskCount_] are
    those of the base class [Task], whose declaration is not among the
    sources: a task "holds taskIndex (0-based slot number), totalTaskCount
    (pool size), and a reference to the shared semaphore", and the source
    reads and writes its [usedTaskCount_]. [dst_], [src_] and [bytes_] are
    the task's own. The shared semaphore lives in the task set's state. *)
Record t : Type := mk {
  taskIndex_ : Z;
  totalTaskCount_ : Z;
  usedTaskCount_ : Z;
  dst_ : ptr;
  src_ : ptr;
  bytes_ : Z
}.

(** The constructor: the base class starts [usedTaskCount_] at
    [totalTaskCount]. *)
Definition new (taskIndex totalTaskCount : Z) : t :=
  {| taskIndex_ := taskIndex;
     totalTaskCount_ := totalTaskCount;
     usedTaskCount_ := totalTaskCount;
     dst_ := NULL;
     src_ := NULL;
     bytes_ := 0 |}.

Definition SetUp (dst src : ptr) (bytes usedTaskCount : Z) (a : t) : t :=
  {| taskIndex_ := taskIndex_ a;
     totalTaskCount_ := totalTaskCount_ a;
     usedTaskCount_ := usedTaskCount;
     dst_ := dst;
     src_ := src;
     bytes_ := bytes |}.

(** The offset and the length of the range a task copies, as [Execute]
    computes them once it has passed its index test. *)
Definition chunkOffset (a : t) : Z :=
  SizeT.mul (taskIndex_ a) (bytes_ a / usedTaskCount_ a).

Definition chunkBytes (a : t) : Z :=
  let chunkBytes := bytes_ a / usedTaskCount_ a in
  if taskIndex_ a =? SizeT.sub (usedTaskCount_ a) 1
  then SizeT.add chunkBytes (bytes_ a mod usedTaskCount_ a)
  else chunkBytes.

Definition Execute (a : t) (m : mem) : result mem :=
  if usedTaskCount_ a <=? taskIndex_ a then OK m
  else
    let dst := dst_ a + chunkOffset a in
    let src := src_ a + chunkOffset a in
    memcpy m dst src (chunkBytes a).

End ATask.

(** ** The task set, its semaphore and the pool it submits to *)

Inductive event : Type :=
| EvSubmit (slot : nat)   (* a task was handed to the pool *)
| EvSignal (slot : nat)   (* a finished task signalled the semaphore *)
| EvWait (n : Z).         (* the owner called [Semaphore::Wait n] *)

Module TaskSet_CopyMemory.

Record t : Type := mk {
  heap : mem;
  tasks_ : list ATask.t;
  usedTaskCount_ : Z;
  semaphore_ : Z;          (* signals not yet consumed by a wait *)
  pool_ : list nat;        (* slots of the tasks queued in the pool *)
  oracle : list nat;       (* the scheduler's future choices *)
  trace : list event       (* pool and semaphore interactions so far *)
}.

Definition with_heap (m : mem) (w : t) : t :=
  mk m (tasks_ w) (usedTaskCount_ w) (semaphore_ w) (pool_ w) (oracle w) (trace w).

Definition with_tasks (l : list ATask.t) (w : t) : t :=
  mk (heap w) l (usedTaskCount_ w) (semaphore_ w) (pool_ w) (oracle w) (trace w).

Definition with_usedTaskCount (u : Z) (w : t) : t :=
  mk (heap w) (tasks_ w) u (semaphore_ w) (pool_ w) (oracle w) (trace w).

(** Modelled from the spec: [TaskSet::CreateTasks<T>], absent from the
    sources, "instantiates exactly one T per pool thread at
    TaskSet-construction time"; each task knows "its index and the total
    partition count". *)
Definition CreateTasks (poolSize : nat) : list ATask.t :=
  (fun i : nat => ATask.new (Z.of_nat i) (Z.of_nat poolSize)) <$> seq 0 poolSize.

(** The constructor, on a pool of [poolSize] threads: the used count
    starts at the size of the pool. *)
Definition new (poolSize : nat) (m : mem) (sched : list nat) : t :=
  {| heap := m;
     tasks_ := CreateTasks poolSize;
     usedTaskCount_ := Z.of_nat poolSize;
     semaphore_ := 0;
     pool_ := [];
     oracle := sched;
     trace := [] |}.

Definition THRESHOLD : Z := 1000000.

Definition SetUp (dst src : ptr) (bytes : Z) (w : t) : result t :=
  do _ <- assert (negb (dst =? NULL));
  do _ <- assert (negb (src =? NULL));
  do _ <- assert (0 <? bytes);
  let used := Z.min (SizeT.add 1 (bytes / THRESHOLD)) (Z.of_nat (length (tasks_ w))) in
  let w := with_usedTaskCount used w in
  if used =? 1 then
    do m <- memcpy (heap w) dst src bytes;
    OK (with_heap m w)
  else
    OK (with_tasks (ATask.SetUp dst src bytes used <$> tasks_ w) w).

(** Modelled from the spec: the "used prefix" of the task slots, those
    whose index is below the used count. *)
Definition used_slots (w : t) : list nat :=
  take (Z.to_nat (usedTaskCount_ w)) (seq 0 (length (tasks_ w))).

(** Modelled from the spec: [TaskSet::Execute], absent from the sources,
    "submits each used task to the pool": the used slots are appended to
    the pool's queue, in slot order. *)
Definition TaskSet_Execute (w : t) : result t :=
  OK (mk (heap w) (tasks_ w) (usedTaskCount_ w) (semaphore_ w)
         (pool_ w ++ used_slots w) (oracle w)
         (trace w ++ (EvSubmit <$> used_slots w))).

(** Modelled from the spec: a worker thread of [ThreadPool], absent from
    the sources. The pool gives "no ordering guarantee between tasks", so
    the oracle picks which queued task runs next; the task's [Execute]
    runs, and the task then "signals the shared semaphore exactly once on
    completion, unconditionally". *)
Definition worker_step (w : t) : result t :=
  let k := (hd 0%nat (oracle w) mod length (pool_ w))%nat in
  match pool_ w !! k with
  | None => Err Deadlock
  | Some slot =>
      match tasks_ w !! slot with
      | None => Err UndefinedBehaviour
      | Some a =>
          do m <- ATask.Execute a (heap w);
          OK (mk m (tasks_ w) (usedTaskCount_ w) (semaphore_ w + 1)
                 (delete k (pool_ w)) (tl (oracle w))
                 (trace w ++ [EvSignal slot]))
      end
  end.

(** Modelled from the spec: [Semaphore::Wait], absent from the sources,
    "blocks the calling thread until at least n signals have occurred
    since the last successful wait, then atomically consumes them".
    While the owner is blocked the workers run; when the queue is empty
    and the count is still short, the owner is blocked for ever. *)
Fixpoint Semaphore_Wait_loop (fuel : nat) (n : Z) (w : t) : result t :=
  if n <=? semaphore_ w then
    OK (mk (heap w) (tasks_ w) (usedTaskCount_ w) (semaphore_ w - n)
           (pool_ w) (oracle w) (trace w))
  else
    match fuel with
    | O => Err Deadlock
    | S fuel' =>
        do w' <- worker_step w;
        Semaphore_Wait_loop fuel' n w'
    end.

(** Modelled from the spec: the call [semaphore_->Wait(n)]. No more
    worker steps than there are queued tasks can happen. *)
Definition Semaphore_Wait (n : Z) (w : t) : result t :=
  Semaphore_Wait_loop (length (pool_ w)) n
    (mk (heap w) (tasks_ w) (usedTaskCount_ w) (semaphore_ w)
        (pool_ w) (oracle w) (trace w ++ [EvWait n])).

Definition Execute (w : t) : result t :=
  if usedTaskCount_ w =? 1 then OK w
  else TaskSet_Execute w.

Definition Wait (w : t) : result t :=
  if usedTaskCount_ w =? 1 then OK w
  else Semaphore_Wait (usedTaskCount_ w) w.

Definition MemCopy (dst src : ptr) (bytes : Z) (w : t) : result t :=
  do w1 <- SetUp dst src bytes w;
  do w2 <- Execute w1;
  Wait w2.

End TaskSet_CopyMemory.

Import TaskSet_CopyMemory.

(** * [DigitalOutputPort]: a digital output port of an NI DAQ board

    The part of [DeviceAdapters/NIDAQ/NIDigitalOutputPort.cpp] that owns the
    DAQmx task of the port. The DAQmx driver is outside the program: what a
    call returns, and what it writes through the pointers it is given, is
    decided by the environment, as a function of the calls made so far.
    The device error codes and [TranslateNIError] are declared in headers
    that are not among the sources and are fields of the environment
    too. *)

Module NIDAQ.

(** The calls into the driver, with the arguments that vary. *)
Inductive call : Type :=
| DAQmxClearTask (task : Z)
| DAQmxCreateTask
| DAQmxCreateDOChan (task : Z) (port : String.string)
| DAQmxWriteDigitalU8 (task : Z) (sample : Z)
| DAQmxWriteDigitalU32 (task : Z) (sample : Z).

(** What a driver call gives back: its [int32] status, the task handle it
    stores through [&task_] and the count it stores through
    [&numWritten] (each read only after the calls that take the
    pointer). *)
Record response : Type := {
  nierr : Z;
  taskOut : Z;
  written : Z
}.

(** The messages handed to [LogMessage]. *)
Inductive message : Type :=
| StoppedTask
| StartingOnDemandTask
| NIDetailedError
| CreatedTask
| CreatedDOChannel
| InvalidPinsPerPort (portWidth : Z)
| FailedToWrite
| WroteDigitalOut (state : Z)
| FailedTaskCleared.

(** [MM::ActionType], as far as the source names its values. *)
Inductive ActionType : Type :=
| BeforeGet
| AfterSet
| IsSequenceable
| AfterLoadSequence
| StartSequence
| StopSequence.

Record Env : Type := {
  DEVICE_OK : Z;
  DEVICE_ERR : Z;
  ERR_SEQUENCE_RUNNING : Z;
  TranslateNIError : Z -> Z;
  g_Never : String.string;
  g_UseHubSetting : String.string;
  g_Low : String.string;
  g_High : String.string;
  driver : list call -> call -> response
}.

Record t : Type := mk {
  niPort_ : String.string;
  initialized_ : bool;
  sequenceRunning_ : bool;
  blanking_ : bool;
  blankOnLow_ : bool;
  pos_ : Z;
  numPos_ : Z;
  portWidth_ : Z;
  neverSequenceable_ : bool;
  supportsBlankingAndSequencing_ : bool;
  task_ : Z;
  calls : list call;       (* the driver calls made so far *)
  logged : list message    (* the messages logged so far *)
}.

(** The constructor's member initialisers. *)
Definition new (port : String.string) : t :=
  {| niPort_ := port;
     initialized_ := false;
     sequenceRunning_ := false;
     blanking_ := false;
     blankOnLow_ := true;
     pos_ := 0;
     numPos_ := 0;
     portWidth_ := 0;
     neverSequenceable_ := false;
     supportsBlankingAndSequencing_ := false;
     task_ := 0;
     calls := [];
     logged := [] |}.

Definition with_task (h : Z) (p : t) : t :=
  mk (niPort_ p) (initialized_ p) (sequenceRunning_ p) (blanking_ p)
     (blankOnLow_ p) (pos_ p) (numPos_ p) (portWidth_ p) (neverSequenceable_ p)
     (supportsBlankingAndSequencing_ p) h (calls p) (logged p).

Definition with_initialized (b : bool) (p : t) : t :=
  mk (niPort_ p) b (sequenceRunning_ p) (blanking_ p)
     (blankOnLow_ p) (pos_ p) (numPos_ p) (portWidth_ p) (neverSequenceable_ p)
     (supportsBlankingAndSequencing_ p) (task_ p) (calls p) (logged p).

Definition with_blankOnLow (b : bool) (p : t) : t :=
  mk (niPort_ p) (initialized_ p) (sequenceRunning_ p) (blanking_ p)
     b (pos_ p) (numPos_ p) (portWidth_ p) (neverSequenceable_ p)
     (supportsBlankingAndSequencing_ p) (task_ p) (calls p) (logged p).

Definition with_neverSequenceable (b : bool) (p : t) : t :=
  mk (niPort_ p) (initialized_ p) (sequenceRunning_ p) (blanking_ p)
     (blankOnLow_ p) (pos_ p) (numPos_ p) (portWidth_ p) b
     (supportsBlankingAndSequencing_ p) (task_ p) (calls p) (logged p).

Definition LogMessage (m : message) (p : t) : t :=
  mk (niPort_ p) (initialized_ p) (sequenceRunning_ p) (blanking_ p)
     (blankOnLow_ p) (pos_ p) (numPos_ p) (portWidth_ p) (neverSequenceable_ p)
     (supportsBlankingAndSequencing_ p) (task_ p) (calls p) (logged p ++ [m]).

(** One call into the driver: its answer, and the port with the call
    recorded. *)
Definition daqmx (E : Env) (c : call) (p : t) : response * t :=
  (driver E (calls p) c,
   mk (niPort_ p) (initialized_ p) (sequenceRunning_ p) (blanking_ p)
      (blankOnLow_ p) (pos_ p) (numPos_ p) (portWidth_ p) (neverSequenceable_ p)
      (supportsBlankingAndSequencing_ p) (task_ p) (calls p ++ [c]) (logged p)).

Definition StopTask (E : Env) (p : t) : Z * t :=
  if task_ p =? 0 then (DEVICE_OK E, p)
  else
    let '(r, p) := daqmx E (DAQmxClearTask (task_ p)) p in
    if negb (nierr r =? 0) then (TranslateNIError E (nierr r), p)
    else (DEVICE_OK E, LogMessage StoppedTask (with_task 0 p)).

(** The code after the label [error], entered with the current [nierr]. *)
Definition on_error (E : Env) (nierr : Z) (p : t) : Z * t :=
  let '(_, p) := daqmx E (DAQmxClearTask (task_ p)) p in
  let p := with_task 0 p in
  if negb (nierr =? 0) then
    (TranslateNIError E nierr, LogMessage FailedTaskCleared p)
  else (DEVICE_ERR E, p).

(** The code from the test of [numWritten] on. *)
Definition after_write (E : Env) (state numWritten : Z) (p : t) : Z * t :=
  if negb (numWritten =? 1) then on_error E 0 (LogMessage FailedToWrite p)
  else (DEVICE_OK E, LogMessage (WroteDigitalOut state) p).

(** The code from the message "Starting on-demand task" on. *)
Definition create_and_write (E : Env) (state : Z) (p : t) : Z * t :=
  let p := LogMessage StartingOnDemandTask p in
  let '(r, p) := daqmx E DAQmxCreateTask p in
  let p := with_task (taskOut r) p in
  if negb (nierr r =? 0) then
    (TranslateNIError E (nierr r), LogMessage NIDetailedError p)
  else
    let p := LogMessage CreatedTask p in
    let '(r, p) := daqmx E (DAQmxCreateDOChan (task_ p) (niPort_ p)) p in
    if negb (nierr r =? 0) then
      on_error E (nierr r) (LogMessage NIDetailedError p)
    else
      let p := LogMessage CreatedDOChannel p in
      if portWidth_ p =? 8 then
        let '(r, p) :=
          daqmx E (DAQmxWriteDigitalU8 (task_ p) (state mod 2 ^ 8)) p in
        if negb (nierr r =? 0) then
          on_error E (nierr r) (LogMessage NIDetailedError p)
        else after_write E state (written r) p
      else if portWidth_ p =? 32 then
        let '(r, p) :=
          daqmx E (DAQmxWriteDigitalU32 (task_ p) (state mod 2 ^ 32)) p in
        if negb (nierr r =? 0) then
          on_error E (nierr r) (LogMessage NIDetailedError p)
        else after_write E state (written r) p
      else
        on_error E 0 (LogMessage (InvalidPinsPerPort (portWidth_ p)) p).

Definition StartOnDemandTask (E : Env) (state : Z) (p : t) : Z * t :=
  if sequenceRunning_ p then (ERR_SEQUENCE_RUNNING E, p)
  else
    let '(err, p) :=
      if negb (task_ p =? 0) then StopTask E p else (DEVICE_OK E, p) in
    if negb (err =? DEVICE_OK E) then (err, p)
    else create_and_write E state p.

Definition Shutdown (E : Env) (p : t) : Z * t :=
  if negb (initialized_ p) then (DEVICE_OK E, p)
  else
    let '(err, p) := StopTask E p in
    (err, with_initialized false p).

(** The property handlers take the value the property holds and give back
    the value it holds afterwards. *)
Definition OnSequenceable (E : Env) (prop : String.string) (eAct : ActionType)
    (p : t) : Z * String.string * t :=
  match eAct with
  | BeforeGet =>
      (DEVICE_OK E,
       if neverSequenceable_ p then g_Never E else g_UseHubSetting E, p)
  | AfterSet =>
      (DEVICE_OK E, prop,
       with_neverSequenceable (String.eqb prop (g_Never E)) p)
  | _ => (DEVICE_OK E, prop, p)
  end.

Definition OnBlankingTriggerDirection (E : Env) (prop : String.string)
    (eAct : ActionType) (p : t) : Z * String.string * t :=
  match eAct with
  | BeforeGet =>
      (DEVICE_OK E, if blankOnLow_ p then g_Low E else g_High E, p)
  | AfterSet =>
      let blankOnLow := if String.eqb prop (g_Low E) then true else false in
      (DEVICE_OK E, prop,
       if negb (Bool.eqb (blankOnLow_ p) blankOnLow)
       then with_blankOnLow blankOnLow p else p)
  | _ => (DEVICE_OK E, prop, p)
  end.

End NIDAQ.

(** * Vocabulary of the properties *)

(** The caller's side of the contract of [MemCopy]. *)
Record precondition (dst src : ptr) (bytes : Z) : Prop := {
  pre_dst : dst <> NULL;
  pre_src : src <> NULL;
  pre_bytes : 0 < bytes < SizeT.modulus;
  pre_disjoint : overlap dst src bytes = false
}.

(** The count [SetUp] stores, as the source writes it. *)
Definition chosen (bytes : Z) (w : t) : Z :=
  Z.min (SizeT.add 1 (bytes / THRESHOLD)) (Z.of_nat (length (tasks_ w))).

(** A task in slot [i] that was set up for [bytes] bytes and [u] used
    tasks. *)
Definition configured (bytes u i : Z) (a : ATask.t) : Prop :=
  ATask.taskIndex_ a = i /\ ATask.usedTaskCount_ a = u /\ ATask.bytes_ a = bytes.

(** Address offset [p] of the buffer lies in the chunk of task [a]. *)
Definition covers (a : ATask.t) (p : Z) : Prop :=
  ATask.chunkOffset a <= p < ATask.chunkOffset a + ATask.chunkBytes a.

(** The [memcpy] call a task issues, if it issues one: destination,
    source and length. *)
Definition job (a : ATask.t) : option (ptr * ptr * Z) :=
  if ATask.usedTaskCount_ a <=? ATask.taskIndex_ a then None
  else Some (ATask.dst_ a + ATask.chunkOffset a,
             ATask.src_ a + ATask.chunkOffset a,
             ATask.chunkBytes a).

(** What holds of a task set between two calls of [MemCopy]: it has one
    slot per pool thread, at least one, each task knows its slot number,
    nothing is queued and no signal is pending. *)
Record idle (w : t) : Prop := {
  idle_pool_size : 1 <= Z.of_nat (length (tasks_ w)) < SizeT.modulus;
  idle_index : forall (i : nat) a,
    tasks_ w !! i = Some a -> ATask.taskIndex_ a = Z.of_nat i;
  idle_queue : pool_ w = [];
  idle_sem : semaphore_ w = 0
}.

(** The state of a parallel copy of [bytes] bytes from [src] to [dst] by
    [u] tasks, after the tasks of the slots [done] have run, in that order,
    and with the others still queued. [m0] is the memory when [MemCopy] was
    called, [ts] are the task slots after [SetUp], and [base] is the trace
    up to the call of [Semaphore::Wait]. *)
Record running (dst src : ptr) (bytes u : Z) (m0 : mem) (ts : list ATask.t)
    (base : list event) (done : list nat) (w : t) : Prop := {
  run_tasks : tasks_ w = ts;
  run_used : usedTaskCount_ w = u;
  run_sem : semaphore_ w = Z.of_nat (length done);
  run_perm : done ++ pool_ w ≡ₚ seq 0 (Z.to_nat u);
  run_trace : trace w = base ++ (EvSignal <$> done);
  run_frame : forall a, in_block dst bytes a = false -> heap w a = m0 a;
  run_done : forall i a p, i ∈ done -> ts !! i = Some a -> covers a p ->
    heap w (dst + p) = m0 (src + p)
}.

(** [n] calls of [MemCopy] with the same arguments, one after the other. *)
Fixpoint MemCopy_times (n : nat) (dst src : ptr) (bytes : Z) (w : t) : result t :=
  match n with
  | O => OK w
  | S k =>
      do w' <- MemCopy dst src bytes w;
      MemCopy_times k dst src bytes w'
  end.

(** The same task set under another scheduler. *)
Definition with_oracle (sched : list nat) (w : t) : t :=
  mk (heap w) (tasks_ w) (usedTaskCount_ w) (semaphore_ w) (pool_ w) sched (trace w).

(** ** Sample data

    Three buffers in a memory whose bytes tell them apart, and task sets
    on a pool of four threads: one fresh from its constructor, one that
    still holds the parameters of an earlier parallel copy. *)

Definition buf_x : ptr := 5000000.
Definition buf_s : ptr := 10000000.
Definition buf_d : ptr := 20000000.

Definition sample_heap : mem :=
  fun a => if a <? buf_s then x02 else if a <? buf_d then x01 else x00.

Definition sample_set : t := new 4 sample_heap [2; 0; 5]%nat.

Definition sample_used : t :=
  mk sample_heap (ATask.SetUp buf_d buf_s 3500000 4 <$> CreateTasks 4) 4
     0 [] [1; 1]%nat [].

(** Three bytes more than a multiple of the task count: the last chunk
    is longer than the others. *)
Definition sample_task (i : Z) : ATask.t :=
  ATask.SetUp buf_d buf_s 3500003 4 (ATask.new i 4).

(** A task of slot 3 when only two tasks are used; its buffers overlap. *)
Definition sample_unused : ATask.t :=
  ATask.SetUp buf_d (buf_d + 1) 2000000 2 (ATask.new 3 4).

(** A driver that accepts every call, hands out task 7 and writes the one
    sample; a driver that accepts every call but the write of a sample;
    and an 8-pin port, initialised, with no task. *)
Definition sample_env (drv : list NIDAQ.call -> NIDAQ.call -> NIDAQ.response)
    : NIDAQ.Env :=
  {| NIDAQ.DEVICE_OK := 0;
     NIDAQ.DEVICE_ERR := 1;
     NIDAQ.ERR_SEQUENCE_RUNNING := 2001;
     NIDAQ.TranslateNIError := fun n => 21000 + Z.abs n mod 1000;
     NIDAQ.g_Never := "Never"%string;
     NIDAQ.g_UseHubSetting := "Use hub setting"%string;
     NIDAQ.g_Low := "Low"%string;
     NIDAQ.g_High := "High"%string;
     NIDAQ.driver := drv |}.

Definition good_driver (_ : list NIDAQ.call) (_ : NIDAQ.call) : NIDAQ.response :=
  {| NIDAQ.nierr := 0; NIDAQ.taskOut := 7; NIDAQ.written := 1 |}.

Definition bad_writer (_ : list NIDAQ.call) (c : NIDAQ.call) : NIDAQ.response :=
  match c with
  | NIDAQ.DAQmxWriteDigitalU8 _ _ | NIDAQ.DAQmxWriteDigitalU32 _ _ =>
      {| NIDAQ.nierr := -200088; NIDAQ.taskOut := 0; NIDAQ.written := 0 |}
  | _ => {| NIDAQ.nierr := 0; NIDAQ.taskOut := 7; NIDAQ.written := 0 |}
  end.

Definition sample_port (width task : Z) : NIDAQ.t :=
  NIDAQ.mk "Dev1/port0"%string true false false true 0 (2 ^ width - 1) width
    false false task [] [].

(** What a run leaves behind, for the examples: the used count, the
    pending signals, the queue and the trace; and one byte of memory. *)
Definition summary (r : result t) : option (Z * Z * list nat * list event) :=
  match r with
  | OK w => Some (usedTaskCount_ w, semaphore_ w, pool_ w, trace w)
  | Err _ => None
  end.

Definition peek (a : ptr) (r : result t) : option byte :=
  match r with
  | OK w => Some (heap w a)
  | Err _ => None
  end.

(** * Properties *)

(** ** Arithmetic of [size_t] *)

Lemma wrap_small z : SizeT.in_range z -> SizeT.wrap z = z.
Proof.
  unfold SizeT.in_range, SizeT.wrap. intros Hz. apply Z.mod_small. exact Hz.
Qed.

Lemma modulus_val : SizeT.modulus = 18446744073709551616.
Proof. reflexivity. Qed.

(** The quotient and the remainder of [bytes] by the used count. *)
Lemma div_mod_facts n u :
  0 <= n -> 0 < u ->
  n = u * (n / u) + n mod u /\ 0 <= n / u /\ 0 <= n mod u < u /\ n / u <= n.
Proof.
  intros Hn Hu.
  pose proof (Z.div_mod n u ltac:(lia)) as Hdm.
  pose proof (Z.mod_pos_bound n u Hu) as Hmod.
  pose proof (Z.div_pos n u Hn Hu) as Hdiv.
  repeat split; try lia. nia.
Qed.

(** The task count [SetUp] chooses, without its wrap-around. *)
Lemma used_count_val bytes :
  0 <= bytes < SizeT.modulus ->
  SizeT.add 1 (bytes / THRESHOLD) = 1 + bytes / 1000000.
Proof.
  intros Hb. unfold SizeT.add, THRESHOLD. apply wrap_small.
  unfold SizeT.in_range. rewrite modulus_val in *.
  pose proof (Z.div_pos bytes 1000000 ltac:(lia) ltac:(lia)).
  assert (bytes / 1000000 <= bytes) by (apply Z.div_le_upper_bound; lia).
  assert (bytes / 1000000 < 18446744073709551615)
    by (apply Z.div_lt_upper_bound; lia).
  lia.
Qed.

(** ** The chunk of a configured task *)

Lemma chunkOffset_val bytes u i a :
  configured bytes u i a ->
  0 <= bytes < SizeT.modulus -> 0 <= i < u ->
  ATask.chunkOffset a = i * (bytes / u).
Proof.
  intros (Hi & Hu & Hb) Hbytes Hiu.
  unfold ATask.chunkOffset. rewrite Hi, Hu, Hb.
  destruct (div_mod_facts bytes u) as (Hdm & Hq & Hr & Hle); [lia | lia |].
  unfold SizeT.mul. apply wrap_small. unfold SizeT.in_range. nia.
Qed.

Lemma chunkBytes_val bytes u i a :
  configured bytes u i a ->
  0 <= bytes < SizeT.modulus -> 0 <= i < u -> u < SizeT.modulus ->
  ATask.chunkBytes a =
    if i =? u - 1 then bytes / u + bytes mod u else bytes / u.
Proof.
  intros (Hi & Hu & Hb) Hbytes Hiu Hum.
  unfold ATask.chunkBytes. rewrite Hi, Hu, Hb.
  destruct (div_mod_facts bytes u) as (Hdm & Hq & Hr & Hle); [lia | lia |].
  unfold SizeT.sub. rewrite (wrap_small (u - 1)) by (unfold SizeT.in_range; lia).
  destruct (i =? u - 1); [| reflexivity].
  unfold SizeT.add. apply wrap_small. unfold SizeT.in_range. nia.
Qed.

(** Every chunk lies inside the buffer. *)
Lemma chunk_inside bytes u i a :
  configured bytes u i a ->
  0 <= bytes < SizeT.modulus -> 0 <= i < u -> u < SizeT.modulus ->
  0 <= ATask.chunkOffset a /\ 0 <= ATask.chunkBytes a /\
  ATask.chunkOffset a + ATask.chunkBytes a <= bytes.
Proof.
  intros Hc Hbytes Hiu Hum.
  rewrite (chunkOffset_val bytes u i a), (chunkBytes_val bytes u i a) by assumption.
  destruct (div_mod_facts bytes u) as (Hdm & Hq & Hr & Hle); [lia | lia |].
  destruct (Z.eqb_spec i (u - 1)); nia.
Qed.

(** Every offset of the buffer lies in the chunk of some used task. *)
Lemma chunk_cover bytes u p :
  0 <= bytes < SizeT.modulus -> 0 < u < SizeT.modulus -> 0 <= p < bytes ->
  exists i, 0 <= i < u /\
    forall a, configured bytes u i a -> covers a p.
Proof.
  intros Hbytes Hu Hp.
  destruct (div_mod_facts bytes u) as (Hdm & Hq & Hr & Hle); [lia | lia |].
  destruct (Z_lt_le_dec p ((u - 1) * (bytes / u))) as [Hlow | Hhigh].
  - assert (Hc : 0 < bytes / u) by nia.
    destruct (div_mod_facts p (bytes / u)) as (Hpdm & Hpq & Hpr & _); [lia | lia |].
    exists (p / (bytes / u)).
    assert (Hi : 0 <= p / (bytes / u) < u - 1) by nia.
    split; [lia |]. intros a Ha. unfold covers.
    rewrite (chunkOffset_val bytes u _ a Ha), (chunkBytes_val bytes u _ a Ha) by lia.
    destruct (Z.eqb_spec (p / (bytes / u)) (u - 1)); [lia | nia].
  - exists (u - 1). split; [lia |]. intros a Ha. unfold covers.
    rewrite (chunkOffset_val bytes u _ a Ha), (chunkBytes_val bytes u _ a Ha) by lia.
    rewrite Z.eqb_refl. nia.
Qed.

(** Two used tasks whose chunks share an offset are the same task. *)
Lemma chunk_disjoint bytes u i j a b p :
  0 <= bytes < SizeT.modulus -> u < SizeT.modulus ->
  0 <= i < u -> 0 <= j < u ->
  configured bytes u i a -> configured bytes u j b ->
  covers a p -> covers b p -> i = j.
Proof.
  intros Hbytes Hum Hi Hj Ha Hb. unfold covers.
  rewrite (chunkOffset_val bytes u i a Ha), (chunkBytes_val bytes u i a Ha) by lia.
  rewrite (chunkOffset_val bytes u j b Hb), (chunkBytes_val bytes u j b Hb) by lia.
  destruct (div_mod_facts bytes u) as (Hdm & Hq & Hr & Hle); [lia | lia |].
  intros Hpa Hpb.
  destruct (Z.eqb_spec i (u - 1)), (Z.eqb_spec j (u - 1)); try lia.
  - destruct (Z_lt_le_dec j i); [| lia]. nia.
  - destruct (Z_lt_le_dec i j); [| lia]. nia.
  - destruct (Z.lt_trichotomy i j) as [Hlt | [Heq | Hgt]]; [| exact Heq |]; nia.
Qed.

(** ** What [SetUp] does *)

Lemma SetUp_inv dst src bytes w w1 :
  SetUp dst src bytes w = OK w1 ->
  (chosen bytes w = 1 /\
   exists m, memcpy (heap w) dst src bytes = OK m /\
             w1 = with_heap m (with_usedTaskCount 1 w)) \/
  (chosen bytes w <> 1 /\
   w1 = with_tasks (ATask.SetUp dst src bytes (chosen bytes w) <$> tasks_ w)
          (with_usedTaskCount (chosen bytes w) w)).
Proof.
  unfold SetUp. fold (chosen bytes w).
  destruct (negb (dst =? NULL)); [| discriminate].
  destruct (negb (src =? NULL)); [| discriminate].
  destruct (0 <? bytes); [| discriminate]. cbn [assert bind].
  destruct (Z.eqb_spec (chosen bytes w) 1) as [Hone | Hmany].
  - rewrite Hone. cbn [heap with_usedTaskCount]. intros H. left.
    split; [reflexivity |].
    destruct (memcpy _ dst src bytes) as [m |] eqn:Hm; [| discriminate].
    exists m. split; [reflexivity |]. cbn in H. congruence.
  - cbn [tasks_ with_usedTaskCount]. intros H. right.
    split; [assumption | congruence].
Qed.

Lemma SetUp_degenerate dst src bytes w :
  precondition dst src bytes -> chosen bytes w = 1 ->
  exists m, memcpy (heap w) dst src bytes = OK m /\
    SetUp dst src bytes w = OK (with_heap m (with_usedTaskCount 1 w)).
Proof.
  intros [Hd Hs Hb Hov] Hone. unfold SetUp. fold (chosen bytes w).
  destruct (Z.eqb_spec dst NULL); [contradiction |].
  destruct (Z.eqb_spec src NULL); [contradiction |].
  destruct (Z.ltb_spec 0 bytes); [| lia]. cbn [negb assert bind].
  rewrite Hone. cbn [Z.eqb Pos.eqb]. unfold memcpy. cbn [heap with_usedTaskCount].
  rewrite Hov. eexists. split; reflexivity.
Qed.

Lemma SetUp_parallel dst src bytes w :
  dst <> NULL -> src <> NULL -> 0 < bytes -> chosen bytes w <> 1 ->
  SetUp dst src bytes w =
    OK (with_tasks (ATask.SetUp dst src bytes (chosen bytes w) <$> tasks_ w)
          (with_usedTaskCount (chosen bytes w) w)).
Proof.
  intros Hd Hs Hb Hmany. unfold SetUp. fold (chosen bytes w).
  destruct (Z.eqb_spec dst NULL); [contradiction |].
  destruct (Z.eqb_spec src NULL); [contradiction |].
  destruct (Z.ltb_spec 0 bytes); [| lia]. cbn [negb assert bind].
  destruct (Z.eqb_spec (chosen bytes w) 1); [contradiction | reflexivity].
Qed.

Lemma SetUp_returns dst src bytes w :
  precondition dst src bytes -> exists w1, SetUp dst src bytes w = OK w1.
Proof.
  intros Hpre. destruct (Z.eq_dec (chosen bytes w) 1) as [Hone | Hmany].
  - destruct (SetUp_degenerate dst src bytes w Hpre Hone) as (m & _ & H). eauto.
  - destruct Hpre as [Hd Hs Hb _]. rewrite SetUp_parallel by (assumption || lia). eauto.
Qed.

Lemma SetUp_stores_chosen dst src bytes w w1 :
  SetUp dst src bytes w = OK w1 -> usedTaskCount_ w1 = chosen bytes w.
Proof.
  intros H. destruct (SetUp_inv _ _ _ _ _ H) as [(Hone & m & _ & ->) | (_ & ->)].
  - symmetry. exact Hone.
  - reflexivity.
Qed.

Lemma chosen_val bytes w :
  0 <= bytes < SizeT.modulus ->
  chosen bytes w = Z.min (1 + bytes / 1000000) (Z.of_nat (length (tasks_ w))).
Proof. intros Hb. unfold chosen. rewrite used_count_val by assumption. reflexivity. Qed.

Lemma chosen_bounds bytes w :
  0 <= bytes < SizeT.modulus -> 1 <= Z.of_nat (length (tasks_ w)) ->
  1 <= chosen bytes w <= Z.of_nat (length (tasks_ w)).
Proof.
  intros Hb Hp. rewrite chosen_val by assumption.
  pose proof (Z.div_pos bytes 1000000 ltac:(lia) ltac:(lia)). lia.
Qed.

(** C2: for [bytes > 0], [SetUp] stores
    [min (1 + bytes / 1000000, poolSize)] as the used task count, and it
    does return when the caller keeps the contract. *)
Theorem SetUp_usedTaskCount (w : t) dst src bytes :
  0 < bytes < SizeT.modulus ->
  1 <= Z.of_nat (length (tasks_ w)) ->
  (forall w1, SetUp dst src bytes w = OK w1 ->
     usedTaskCount_ w1 =
       Z.min (1 + bytes / 1000000) (Z.of_nat (length (tasks_ w)))) /\
  (dst <> NULL -> src <> NULL -> overlap dst src bytes = false ->
     exists w1, SetUp dst src bytes w = OK w1).
Proof.
  intros Hb _. split.
  - intros w1 H. rewrite (SetUp_stores_chosen _ _ _ _ _ H).
    apply chosen_val. lia.
  - intros Hd Hs Hov. apply SetUp_returns. split; assumption.
Qed.

(** C6: after [SetUp] on a pool of at least one thread, the used task
    count is at least one and at most the number of task slots. *)
Theorem SetUp_usedTaskCount_bounds (w : t) dst src bytes :
  0 < bytes < SizeT.modulus ->
  1 <= Z.of_nat (length (tasks_ w)) ->
  (forall w1, SetUp dst src bytes w = OK w1 ->
     1 <= usedTaskCount_ w1 <= Z.of_nat (length (tasks_ w1))) /\
  (dst <> NULL -> src <> NULL -> overlap dst src bytes = false ->
     exists w1, SetUp dst src bytes w = OK w1).
Proof.
  intros Hb Hp. split.
  - intros w1 H.
    assert (Hlen : length (tasks_ w1) = length (tasks_ w)).
    { destruct (SetUp_inv _ _ _ _ _ H) as [(_ & m & _ & ->) | (_ & ->)];
        cbn [tasks_ with_heap with_tasks with_usedTaskCount];
        [reflexivity | apply length_fmap]. }
    rewrite Hlen, (SetUp_stores_chosen _ _ _ _ _ H).
    apply chosen_bounds; lia.
  - intros Hd Hs Hov. apply SetUp_returns. split; assumption.
Qed.

(** ** The ranges the tasks copy *)

Lemma Execute_job a m :
  ATask.Execute a m =
    match job a with
    | None => OK m
    | Some (d, s, n) => memcpy m d s n
    end.
Proof.
  unfold ATask.Execute, job.
  destruct (ATask.usedTaskCount_ a <=? ATask.taskIndex_ a); reflexivity.
Qed.

Lemma job_used bytes u i a :
  configured bytes u i a -> i < u ->
  job a = Some (ATask.dst_ a + ATask.chunkOffset a,
                ATask.src_ a + ATask.chunkOffset a,
                ATask.chunkBytes a).
Proof.
  intros (Hi & Hu & _) Hlt. unfold job. rewrite Hi, Hu.
  destruct (Z.leb_spec u i); [lia | reflexivity].
Qed.

(** C3: for [usedTaskCount > 1] the chunks of the used tasks tile
    [0, bytes): the first starts at 0, each of the others starts where its
    predecessor ends, the last ends at [bytes] and has length
    [bytes / usedTaskCount + bytes % usedTaskCount], all others have length
    [bytes / usedTaskCount], and every offset lies in the chunk of exactly
    one used task. These are the ranges [Execute] copies. *)
Theorem chunks_partition bytes u (task : Z -> ATask.t) :
  0 < bytes < SizeT.modulus ->
  1 < u < SizeT.modulus ->
  (forall i, 0 <= i < u -> configured bytes u i (task i)) ->
  (forall i, 0 <= i < u ->
     job (task i) =
       Some (ATask.dst_ (task i) + i * (bytes / u),
             ATask.src_ (task i) + i * (bytes / u),
             ATask.chunkBytes (task i))) /\
  ATask.chunkOffset (task 0) = 0 /\
  (forall i, 0 <= i < u - 1 ->
     ATask.chunkBytes (task i) = bytes / u /\
     ATask.chunkOffset (task (i + 1)) =
       ATask.chunkOffset (task i) + ATask.chunkBytes (task i)) /\
  ATask.chunkBytes (task (u - 1)) = bytes / u + bytes mod u /\
  ATask.chunkOffset (task (u - 1)) + ATask.chunkBytes (task (u - 1)) = bytes /\
  (forall p, 0 <= p < bytes ->
     exists i, 0 <= i < u /\ covers (task i) p /\
       forall j, 0 <= j < u -> covers (task j) p -> j = i).
Proof.
  intros Hb Hu Hcfg.
  destruct (div_mod_facts bytes u) as (Hdm & Hq & Hr & Hle); [lia | lia |].
  assert (Hoff : forall i, 0 <= i < u ->
            ATask.chunkOffset (task i) = i * (bytes / u)).
  { intros i Hi. apply (chunkOffset_val bytes u i); [auto | lia | lia]. }
  assert (Hlen : forall i, 0 <= i < u ->
            ATask.chunkBytes (task i) =
              if i =? u - 1 then bytes / u + bytes mod u else bytes / u).
  { intros i Hi. apply (chunkBytes_val bytes u i); [auto | lia | lia | lia]. }
  repeat split.
  - intros i Hi. rewrite (job_used bytes u i) by (auto || lia).
    rewrite Hoff by lia. reflexivity.
  - rewrite Hoff by lia. lia.
  - rewrite Hlen by lia. destruct (Z.eqb_spec i (u - 1)); [lia | reflexivity].
  - rewrite !Hoff, Hlen by lia. destruct (Z.eqb_spec i (u - 1)); lia.
  - rewrite Hlen by lia. rewrite Z.eqb_refl. reflexivity.
  - rewrite Hoff, Hlen by lia. rewrite Z.eqb_refl. lia.
  - intros p Hp.
    destruct (chunk_cover bytes u p) as (i & Hi & Hcov); [lia | lia | lia |].
    exists i. split; [exact Hi |]. split; [apply Hcov; auto |].
    intros j Hj Hcj.
    apply (chunk_disjoint bytes u j i (task j) (task i) p); auto; lia.
Qed.

(** C5: a task whose index is not below its used count returns from
    [Execute] at once, whatever its stored pointers and length are: the
    memory is the one it was given, and [memcpy] is not called (the call
    would be an error on overlapping ranges). When a worker of the pool
    runs such a task, the memory and all task slots are unchanged. *)
Theorem unused_task_skips (a : ATask.t) :
  ATask.usedTaskCount_ a <= ATask.taskIndex_ a ->
  job a = None /\
  (forall m, ATask.Execute a m = OK m) /\
  (forall w slot, pool_ w = [slot] -> tasks_ w !! slot = Some a ->
     exists w', worker_step w = OK w' /\
       heap w' = heap w /\ tasks_ w' = tasks_ w).
Proof.
  intros Hge.
  assert (Hjob : job a = None).
  { unfold job. destruct (Z.leb_spec (ATask.usedTaskCount_ a) (ATask.taskIndex_ a));
      [reflexivity | lia]. }
  assert (Hexec : forall m, ATask.Execute a m = OK m).
  { intros m. rewrite Execute_job, Hjob. reflexivity. }
  repeat split; [exact Hjob | exact Hexec |].
  intros w slot Hpool Hslot. unfold worker_step. rewrite Hpool.
  cbn [length]. rewrite Nat.mod_1_r. cbn [lookup list_lookup].
  rewrite Hslot, Hexec. cbn [bind]. eexists. split; [reflexivity |].
  split; reflexivity.
Qed.

(** ** Facts about [memcpy] *)

Lemma overlap_false d s n :
  overlap d s n = false <-> n <= 0 \/ s + n <= d \/ d + n <= s.
Proof.
  unfold overlap.
  destruct (Z.ltb_spec 0 n), (Z.ltb_spec d (s + n)), (Z.ltb_spec s (d + n));
    cbn [andb]; split; intros Hx; try reflexivity; try discriminate; lia.
Qed.

Lemma in_block_true d n a : in_block d n a = true <-> d <= a < d + n.
Proof.
  unfold in_block.
  destruct (Z.leb_spec d a), (Z.ltb_spec a (d + n));
    cbn [andb]; split; intros Hx; try reflexivity; try discriminate; lia.
Qed.

Lemma in_block_false d n a : in_block d n a = false <-> ~ (d <= a < d + n).
Proof.
  rewrite <- in_block_true. destruct (in_block d n a); split; congruence.
Qed.

Lemma memcpy_disjoint m d s n :
  overlap d s n = false ->
  memcpy m d s n =
    OK (fun a => if in_block d n a then m (s + (a - d)) else m a).
Proof. intros H. unfold memcpy. rewrite H. reflexivity. Qed.

(** A copy between two sub-ranges at the same offset of disjoint buffers
    is itself between disjoint ranges. *)
Lemma overlap_chunk dst src bytes off len :
  overlap dst src bytes = false ->
  0 <= off -> 0 <= len -> off + len <= bytes ->
  overlap (dst + off) (src + off) len = false.
Proof. rewrite !overlap_false. lia. Qed.

(** The byte-by-byte loop and [memcpy] agree on disjoint ranges. *)
Lemma copy_bytes_spec n d s m :
  overlap d s (Z.of_nat n) = false ->
  forall a,
    copy_bytes n d s m a =
      if in_block d (Z.of_nat n) a then m (s + (a - d)) else m a.
Proof.
  induction n as [| k IH]; intros Hov a.
  - cbn [copy_bytes]. destruct (in_block d (Z.of_nat 0) a) eqn:Hin; [| reflexivity].
    apply in_block_true in Hin. lia.
  - assert (Hk : overlap d s (Z.of_nat k) = false).
    { apply overlap_false in Hov. apply overlap_false. lia. }
    specialize (IH Hk). apply overlap_false in Hov.
    cbn [copy_bytes]. unfold store.
    destruct (Z.eqb_spec a (d + Z.of_nat k)) as [-> | Hne].
    + rewrite (proj2 (in_block_true d (Z.of_nat (S k)) _)) by lia.
      rewrite IH. rewrite (proj2 (in_block_false d (Z.of_nat k) _)) by lia.
      f_equal. lia.
    + rewrite IH.
      destruct (in_block d (Z.of_nat k) a) eqn:Hin.
      * apply in_block_true in Hin.
        rewrite (proj2 (in_block_true d (Z.of_nat (S k)) _)) by lia. reflexivity.
      * apply in_block_false in Hin.
        rewrite (proj2 (in_block_false d (Z.of_nat (S k)) _)) by lia. reflexivity.
Qed.

(** ** A task set at rest *)

Lemma new_idle poolSize m sched :
  1 <= Z.of_nat poolSize < SizeT.modulus -> idle (new poolSize m sched).
Proof.
  intros Hp. split; cbn [new tasks_ pool_ semaphore_]; try reflexivity.
  - unfold CreateTasks. rewrite length_fmap, length_seq. exact Hp.
  - intros i a. unfold CreateTasks. rewrite list_lookup_fmap.
    destruct (seq 0 poolSize !! i) as [j |] eqn:Hj; [| discriminate].
    apply lookup_seq in Hj. destruct Hj as [-> _].
    cbn. intros [= <-]. reflexivity.
Qed.

(** ** The workers, while the owner waits *)

Section Parallel.

Variables (dst src : ptr) (bytes u : Z).
Variable m0 : mem.               (* the memory when [MemCopy] was called *)
Variable ts : list ATask.t.      (* the task slots after [SetUp] *)
Variable base : list event.      (* the trace up to the call of [Wait] *)

Hypothesis Hpre : precondition dst src bytes.
Hypothesis Hu : 1 <= u < SizeT.modulus.
Hypothesis Hlen : u <= Z.of_nat (length ts).
Hypothesis Hts : forall (i : nat) a, ts !! i = Some a ->
  configured bytes u (Z.of_nat i) a /\
  ATask.dst_ a = dst /\ ATask.src_ a = src.

Local Abbreviation running_here := (running dst src bytes u m0 ts base).

Lemma running_counts done w :
  running_here done w -> Z.of_nat (length done) + Z.of_nat (length (pool_ w)) = u.
Proof.
  intros [_ _ _ Rperm _ _ _]. pose proof (Permutation_length Rperm) as Hl.
  rewrite length_app, length_seq in Hl. lia.
Qed.

Lemma queued_slot done w slot :
  running_here done w -> slot ∈ pool_ w ->
  exists a, ts !! slot = Some a /\
    configured bytes u (Z.of_nat slot) a /\
    ATask.dst_ a = dst /\ ATask.src_ a = src /\ Z.of_nat slot < u.
Proof.
  intros [_ _ _ Rperm _ _ _] Hin.
  assert (Hseq : slot ∈ seq 0 (Z.to_nat u)).
  { rewrite <- Rperm. apply elem_of_app. right. exact Hin. }
  apply elem_of_seq in Hseq.
  destruct (lookup_lt_is_Some_2 ts slot) as [a Ha]; [lia |].
  exists a. destruct (Hts slot a Ha) as (Hc & Hd & Hs).
  repeat split; try assumption; try apply Hc. lia.
Qed.

Lemma worker_step_running done w :
  running_here done w -> pool_ w <> [] ->
  exists slot w', worker_step w = OK w' /\
    running_here (done ++ [slot]) w' /\
    S (length (pool_ w')) = length (pool_ w).
Proof.
  intros R Hne. unfold worker_step.
  set (k := (hd 0%nat (oracle w) mod length (pool_ w))%nat).
  assert (Hk : (k < length (pool_ w))%nat).
  { apply Nat.mod_upper_bound. destruct (pool_ w); [contradiction | cbn; lia]. }
  destruct (lookup_lt_is_Some_2 _ _ Hk) as [slot Hslot]. rewrite Hslot.
  destruct (queued_slot done w slot R) as (a & Ha & Hc & Hd & Hs & Hlt).
  { eapply list_elem_of_lookup_2. exact Hslot. }
  destruct R as [Rtasks Rused Rsem Rperm Rtrace Rframe Rdone].
  rewrite Rtasks, Ha.
  destruct Hpre as [_ _ Hb Hov].
  destruct (chunk_inside bytes u (Z.of_nat slot) a Hc) as (Hoff & Hcb & Hend);
    [lia | lia | lia |].
  rewrite Execute_job, (job_used bytes u (Z.of_nat slot) a Hc Hlt), Hd, Hs.
  rewrite memcpy_disjoint by (apply (overlap_chunk dst src bytes); assumption).
  cbn [bind]. eexists slot, _. split; [reflexivity |].
  apply overlap_false in Hov.
  split; [split |]; cbn [tasks_ usedTaskCount_ semaphore_ pool_ trace heap].
  - reflexivity.
  - exact Rused.
  - rewrite Rsem, length_app. cbn [length]. lia.
  - rewrite <- Rperm, <- app_assoc. apply Permutation_app_head.
    cbn [app]. symmetry. apply delete_Permutation. exact Hslot.
  - rewrite Rtrace, fmap_app, app_assoc. reflexivity.
  - intros x Hx. apply in_block_false in Hx.
    rewrite (proj2 (in_block_false _ _ _)) by lia.
    apply Rframe. apply in_block_false. exact Hx.
  - intros i b p Hi Hb' Hcov.
    destruct (in_block (dst + ATask.chunkOffset a) (ATask.chunkBytes a) (dst + p))
      eqn:Hin.
    + apply in_block_true in Hin.
      replace (src + ATask.chunkOffset a + (dst + p - (dst + ATask.chunkOffset a)))
        with (src + p) by lia.
      apply Rframe. apply in_block_false. lia.
    + apply in_block_false in Hin.
      apply elem_of_app in Hi. destruct Hi as [Hi | Hi].
      * apply (Rdone i b p Hi Hb' Hcov).
      * apply list_elem_of_singleton in Hi. subst i.
        assert (b = a) by congruence. subst b.
        unfold covers in Hcov. lia.
  - rewrite length_delete by (eexists; exact Hslot). lia.
Qed.

(** The owner's wait returns: every queued task runs once, the signals
    are consumed, and the state is that of a finished run. *)
Lemma wait_loop_running fuel :
  forall done w,
    running_here done w -> length (pool_ w) = fuel ->
    exists done' wr,
      running_here done' wr /\ pool_ wr = [] /\
      Semaphore_Wait_loop fuel u w =
        OK (mk (heap wr) (tasks_ wr) (usedTaskCount_ wr) 0
              (pool_ wr) (oracle wr) (trace wr)).
Proof.
  induction fuel as [| fuel IH]; intros done w R Hfuel.
  - pose proof (running_counts _ _ R) as Hcnt.
    pose proof R as [_ _ Rsem _ _ _ _].
    exists done, w. split; [exact R |].
    split; [apply nil_length_inv; exact Hfuel |].
    cbn [Semaphore_Wait_loop].
    destruct (Z.leb_spec u (semaphore_ w)) as [_ | Hlt];
      [| rewrite Rsem in Hlt; lia].
    rewrite Rsem. do 2 f_equal. lia.
  - pose proof (running_counts _ _ R) as Hcnt.
    pose proof R as [_ _ Rsem _ _ _ _].
    cbn [Semaphore_Wait_loop].
    destruct (Z.leb_spec u (semaphore_ w)) as [Hle | _];
      [rewrite Rsem in Hle; lia |].
    destruct (worker_step_running done w R) as (slot & w' & Hstep & R' & Hl).
    { intros Hnil. rewrite Hnil in Hfuel. discriminate. }
    rewrite Hstep. cbn [bind]. apply (IH _ _ R'). lia.
Qed.

(** Once nothing is queued any more, the buffer has been copied. *)
Lemma running_finished done w :
  running_here done w -> pool_ w = [] ->
  done ≡ₚ seq 0 (Z.to_nat u) /\
  forall p, 0 <= p < bytes -> heap w (dst + p) = m0 (src + p).
Proof.
  intros [_ _ _ Hperm _ _ Rdone] Hnil.
  rewrite Hnil, app_nil_r in Hperm. split; [exact Hperm |].
  intros p Hp. destruct Hpre as [_ _ Hb _].
  destruct (chunk_cover bytes u p) as (i & Hi & Hcov); [lia | lia | lia |].
  assert (Hslot : (Z.to_nat i < length ts)%nat) by lia.
  destruct (lookup_lt_is_Some_2 ts _ Hslot) as [a Ha].
  destruct (Hts _ a Ha) as (Hc & _). rewrite Z2Nat.id in Hc by lia.
  apply (Rdone (Z.to_nat i) a p); [| exact Ha | apply Hcov; exact Hc].
  rewrite Hperm. apply elem_of_seq. lia.
Qed.

End Parallel.

(** ** One call of [MemCopy] *)

Lemma chosen_gt_1 bytes w :
  0 <= bytes < SizeT.modulus -> 1 <= Z.of_nat (length (tasks_ w)) ->
  chosen bytes w <> 1 -> 1 < chosen bytes w.
Proof. intros Hb Hp Hne. pose proof (chosen_bounds bytes w Hb Hp). lia. Qed.

Lemma configured_slots dst src bytes u w :
  idle w ->
  forall (i : nat) a,
    (ATask.SetUp dst src bytes u <$> tasks_ w) !! i = Some a ->
    configured bytes u (Z.of_nat i) a /\
    ATask.dst_ a = dst /\ ATask.src_ a = src.
Proof.
  intros Hidle i a. rewrite list_lookup_fmap.
  destruct (tasks_ w !! i) as [a0 |] eqn:Ha0; [| discriminate].
  cbn. intros [= <-]. unfold configured. cbn.
  rewrite (idle_index w Hidle i a0 Ha0). repeat split.
Qed.

(** The three phases on the parallel path. *)
Lemma parallel_run w dst src bytes :
  idle w -> precondition dst src bytes -> chosen bytes w <> 1 ->
  let u := chosen bytes w in
  let ts := ATask.SetUp dst src bytes u <$> tasks_ w in
  let w1 := with_tasks ts (with_usedTaskCount u w) in
  let w2 := mk (heap w) ts u 0 (seq 0 (Z.to_nat u)) (oracle w)
               (trace w ++ (EvSubmit <$> seq 0 (Z.to_nat u))) in
  SetUp dst src bytes w = OK w1 /\
  Execute w1 = OK w2 /\
  Wait w2 = Semaphore_Wait u w2 /\
  exists done wr,
    running dst src bytes u (heap w) ts (trace w2 ++ [EvWait u]) done wr /\
    pool_ wr = [] /\
    Wait w2 = OK (mk (heap wr) (tasks_ wr) (usedTaskCount_ wr) 0
                    (pool_ wr) (oracle wr) (trace wr)).
Proof.
  intros Hidle Hpre Hmany u ts w1 w2.
  pose proof Hpre as [Hd Hs Hb Hov].
  pose proof (idle_pool_size w Hidle) as Hp.
  pose proof (chosen_bounds bytes w ltac:(lia) ltac:(lia)) as Hbound.
  fold u in Hbound.
  assert (Hne : (u =? 1) = false) by (apply Z.eqb_neq; exact Hmany).
  assert (Hlts : length ts = length (tasks_ w)) by apply length_fmap.
  split; [apply SetUp_parallel; (assumption || lia) |].
  split.
  { unfold Execute, w1. cbn [usedTaskCount_ with_tasks with_usedTaskCount].
    rewrite Hne. unfold TaskSet_Execute, used_slots.
    cbn [usedTaskCount_ tasks_ heap semaphore_ pool_ oracle trace
         with_tasks with_usedTaskCount].
    rewrite take_seq, Hlts, Nat.min_l by lia.
    rewrite (idle_queue w Hidle), (idle_sem w Hidle). reflexivity. }
  assert (HW : Wait w2 = Semaphore_Wait u w2).
  { unfold Wait, w2. cbn [usedTaskCount_]. rewrite Hne. reflexivity. }
  split; [exact HW |]. rewrite HW. unfold Semaphore_Wait.
  apply (wait_loop_running dst src bytes u (heap w) ts (trace w2 ++ [EvWait u]) Hpre)
    with (done := []).
  - lia.
  - lia.
  - apply configured_slots. exact Hidle.
  - split; cbn [tasks_ usedTaskCount_ semaphore_ pool_ trace heap w2 length app fmap];
      try reflexivity.
    + rewrite app_nil_r. reflexivity.
    + intros i a p Hi. apply elem_of_nil in Hi. contradiction.
  - reflexivity.
Qed.

(** What a call of [MemCopy] on a task set at rest returns; the task set
    is at rest again afterwards. *)
Lemma MemCopy_spec w dst src bytes :
  idle w -> precondition dst src bytes ->
  exists w',
    MemCopy dst src bytes w = OK w' /\
    idle w' /\
    usedTaskCount_ w' = chosen bytes w /\
    (forall p, 0 <= p < bytes -> heap w' (dst + p) = heap w (src + p)) /\
    (forall a, in_block dst bytes a = false -> heap w' a = heap w a).
Proof.
  intros Hidle Hpre. pose proof Hpre as [Hd Hs Hb Hov].
  destruct (Z.eq_dec (chosen bytes w) 1) as [Hone | Hmany].
  - destruct (SetUp_degenerate dst src bytes w Hpre Hone) as (m & Hm & HS).
    rewrite memcpy_disjoint in Hm by assumption. injection Hm as <-.
    eexists. split.
    { unfold MemCopy. rewrite HS. cbn [bind]. unfold Execute.
      cbn [usedTaskCount_ with_heap with_usedTaskCount Z.eqb Pos.eqb bind].
      unfold Wait. cbn [usedTaskCount_ with_heap with_usedTaskCount Z.eqb Pos.eqb].
      reflexivity. }
    split; [| split; [| split]];
      cbn [heap usedTaskCount_ with_heap with_usedTaskCount].
    + destruct Hidle as [H1 H2 H3 H4]. split; assumption.
    + symmetry. exact Hone.
    + intros p Hp. rewrite (proj2 (in_block_true dst bytes (dst + p))) by lia.
      f_equal. lia.
    + intros a Ha. rewrite Ha. reflexivity.
  - destruct (parallel_run w dst src bytes Hidle Hpre Hmany)
      as (HS & HE & _ & done & wr & R & Hnil & HW).
    pose proof (idle_pool_size w Hidle) as Hp.
    pose proof (chosen_bounds bytes w ltac:(lia) ltac:(lia)) as Hbound.
    assert (Hcfg := configured_slots dst src bytes (chosen bytes w) w Hidle).
    assert (Hcopied : forall p, 0 <= p < bytes ->
              heap wr (dst + p) = heap w (src + p)).
    { eapply running_finished; [exact Hpre | | | exact Hcfg | exact R | exact Hnil].
      - lia.
      - rewrite length_fmap. lia. }
    destruct R as [Rtasks Rused _ _ _ Rframe _].
    eexists. split.
    { unfold MemCopy. rewrite HS. cbn [bind]. rewrite HE. cbn [bind]. exact HW. }
    split; [| split; [| split]]; cbn [heap usedTaskCount_].
    + split; cbn [tasks_ pool_ semaphore_]; try reflexivity; try assumption.
      * rewrite Rtasks, length_fmap. exact Hp.
      * intros i a. rewrite Rtasks. intros Ha. apply (Hcfg i a Ha).
    + exact Rused.
    + exact Hcopied.
    + exact Rframe.
Qed.

(** C1: on a task set at rest, for every [dst], [src] and [bytes] that keep
    the contract and for every order in which the pool runs the tasks,
    [MemCopy] returns and [dst[0..bytes)] then holds what [src[0..bytes)]
    held before the call; the size may be below the threshold, at it, or
    span several chunks. *)
Theorem MemCopy_correct w dst src bytes :
  idle w -> precondition dst src bytes ->
  exists w', MemCopy dst src bytes w = OK w' /\
    forall p, 0 <= p < bytes -> heap w' (dst + p) = heap w (src + p).
Proof.
  intros Hidle Hpre.
  destruct (MemCopy_spec w dst src bytes Hidle Hpre) as (w' & HM & _ & _ & Hc & _).
  exists w'. split; assumption.
Qed.

(** Calls after the first leave the memory as they found it. *)
Lemma MemCopy_again n dst src bytes :
  precondition dst src bytes ->
  forall w1, idle w1 ->
    (forall p, 0 <= p < bytes -> heap w1 (dst + p) = heap w1 (src + p)) ->
    exists wn, MemCopy_times n dst src bytes w1 = OK wn /\
      forall a, heap wn a = heap w1 a.
Proof.
  intros Hpre. induction n as [| n IH]; intros w1 Hidle Hsame.
  - exists w1. split; reflexivity.
  - destruct (MemCopy_spec w1 dst src bytes Hidle Hpre)
      as (w2 & HM & Hidle2 & _ & Hc & Hf).
    assert (Heq : forall a, heap w2 a = heap w1 a).
    { intros a. destruct (in_block dst bytes a) eqn:Hin.
      - apply in_block_true in Hin.
        replace a with (dst + (a - dst)) by lia.
        rewrite Hc by lia. symmetry. apply Hsame. lia.
      - apply Hf. exact Hin. }
    destruct (IH w2 Hidle2) as (wn & Hn & Hwn).
    { intros p Hp. rewrite !Heq. apply Hsame. exact Hp. }
    exists wn. split.
    + cbn [MemCopy_times]. rewrite HM. exact Hn.
    + intros a. rewrite Hwn. apply Heq.
Qed.

(** C8: [MemCopy] is idempotent. After one call with arguments that keep
    the contract, any number of further calls with the same arguments
    return, and each leaves the whole memory, [dst] included, as the first
    call left it: [dst[0..bytes)] holds the original [src[0..bytes)]. *)
Theorem MemCopy_idempotent w dst src bytes :
  idle w -> precondition dst src bytes ->
  exists w1, MemCopy dst src bytes w = OK w1 /\
    forall n, exists wn,
      MemCopy_times (S n) dst src bytes w = OK wn /\
      (forall a, heap wn a = heap w1 a) /\
      (forall p, 0 <= p < bytes -> heap wn (dst + p) = heap w (src + p)).
Proof.
  intros Hidle Hpre.
  destruct (MemCopy_spec w dst src bytes Hidle Hpre)
    as (w1 & HM & Hidle1 & _ & Hc & Hf).
  exists w1. split; [exact HM |]. intros n.
  destruct (MemCopy_again n dst src bytes Hpre w1 Hidle1) as (wn & Hn & Hwn).
  { intros p Hp. rewrite Hc by exact Hp. symmetry. apply Hf.
    destruct Hpre as [_ _ Hb Hov]. apply overlap_false in Hov.
    apply in_block_false. lia. }
  exists wn. split; [| split].
  - cbn [MemCopy_times]. rewrite HM. exact Hn.
  - exact Hwn.
  - intros p Hp. rewrite Hwn. apply Hc. exact Hp.
Qed.

(** C4: when the used task count is 1, as it is for every
    [bytes < 1000000], [SetUp] itself copies the buffer and leaves the
    pool's queue, the semaphore and the trace of pool and semaphore
    interactions untouched; [Execute] and [Wait] then return the state they
    are given; and the memory [MemCopy] returns is, at every address, the
    one a single thread copying byte after byte produces. *)
Theorem degenerate_path w dst src bytes :
  1 <= Z.of_nat (length (tasks_ w)) ->
  precondition dst src bytes ->
  (bytes < 1000000 -> chosen bytes w = 1) /\
  (chosen bytes w = 1 ->
   exists w1,
     SetUp dst src bytes w = OK w1 /\
     usedTaskCount_ w1 = 1 /\
     pool_ w1 = pool_ w /\ semaphore_ w1 = semaphore_ w /\
     trace w1 = trace w /\ oracle w1 = oracle w /\
     Execute w1 = OK w1 /\
     Wait w1 = OK w1 /\
     MemCopy dst src bytes w = OK w1 /\
     (forall a, heap w1 a = copy_bytes (Z.to_nat bytes) dst src (heap w) a) /\
     (forall p, 0 <= p < bytes -> heap w1 (dst + p) = heap w (src + p))).
Proof.
  intros Hp Hpre. pose proof Hpre as [Hd Hs Hb Hov]. split.
  - intros Hsmall. rewrite chosen_val by lia.
    rewrite Z.div_small by lia. lia.
  - intros Hone.
    destruct (SetUp_degenerate dst src bytes w Hpre Hone) as (m & Hm & HS).
    rewrite memcpy_disjoint in Hm by assumption. injection Hm as <-.
    eexists. split; [exact HS |].
    assert (HE : forall w1, usedTaskCount_ w1 = 1 -> Execute w1 = OK w1).
    { intros w1 H1. unfold Execute. rewrite H1. reflexivity. }
    assert (HW : forall w1, usedTaskCount_ w1 = 1 -> Wait w1 = OK w1).
    { intros w1 H1. unfold Wait. rewrite H1. reflexivity. }
    do 5 (split; [reflexivity |]).
    split; [apply HE; reflexivity |].
    split; [apply HW; reflexivity |].
    split; [| split].
    + unfold MemCopy. rewrite HS. cbn [bind].
      rewrite HE by reflexivity. cbn [bind]. apply HW. reflexivity.
    + intros a. cbn [heap with_heap].
      rewrite copy_bytes_spec by (rewrite Z2Nat.id by lia; exact Hov).
      rewrite Z2Nat.id by lia. reflexivity.
    + intros p Hpp. cbn [heap with_heap with_usedTaskCount].
      rewrite (proj2 (in_block_true dst bytes (dst + p))) by lia.
      f_equal. lia.
Qed.

(** C7: on the parallel path ([usedTaskCount > 1]) [Wait] calls
    [Semaphore::Wait] with the used task count [SetUp] stored, and it
    returns after exactly that many signals, one from each submitted task,
    all of which it consumes. *)
Theorem Wait_threshold w dst src bytes :
  idle w -> precondition dst src bytes -> 1 < chosen bytes w ->
  exists w1 w2 w3 done,
    SetUp dst src bytes w = OK w1 /\
    Execute w1 = OK w2 /\
    Wait w2 = OK w3 /\
    usedTaskCount_ w1 = chosen bytes w /\
    Wait w2 = Semaphore_Wait (usedTaskCount_ w1) w2 /\
    trace w3 = trace w2 ++ [EvWait (usedTaskCount_ w1)] ++ (EvSignal <$> done) /\
    Z.of_nat (length done) = usedTaskCount_ w1 /\
    done ≡ₚ seq 0 (Z.to_nat (usedTaskCount_ w1)) /\
    semaphore_ w3 = 0 /\ pool_ w3 = [].
Proof.
  intros Hidle Hpre Hgt.
  destruct (parallel_run w dst src bytes Hidle Hpre ltac:(lia))
    as (HS & HE & HWs & done & wr & R & Hnil & HW).
  pose proof (idle_pool_size w Hidle) as Hp.
  destruct Hpre as [Hd Hs Hb Hov].
  pose proof (chosen_bounds bytes w ltac:(lia) ltac:(lia)) as Hbound.
  pose proof R as Hcnt. apply running_counts in Hcnt; [| lia].
  destruct R as [_ _ _ Rperm Rtrace _ _].
  rewrite Hnil, app_nil_r in Rperm. rewrite Hnil in Hcnt.
  do 4 eexists.
  split; [exact HS |]. split; [exact HE |]. split; [exact HW |].
  cbn [usedTaskCount_ with_tasks with_usedTaskCount trace semaphore_ pool_].
  split; [reflexivity |]. split; [exact HWs |].
  split; [rewrite Rtrace, <- app_assoc; reflexivity |].
  split; [cbn [length] in Hcnt; lia |].
  split; [exact Rperm |]. split; [reflexivity | exact Hnil].
Qed.

(** C9: pool size 4 and [bytes = 3500000]. [SetUp] stores
    [min (1 + 3, 4) = 4]; the tasks of slots 0 to 3 copy 875000 bytes each,
    from offsets 0, 875000, 1750000 and 2625000 (the last one adds the
    remainder, which is 0); every offset of [0, 3500000) lies in the chunk
    of exactly one task, and no chunk leaves that range. *)
Theorem scenario_four_tasks (m : mem) (sched : list nat) (dst src : ptr) :
  dst <> NULL -> src <> NULL ->
  exists w1,
    SetUp dst src 3500000 (new 4 m sched) = OK w1 /\
    Z.min (1 + 3500000 / 1000000) 4 = 4 /\
    usedTaskCount_ w1 = 4 /\
    3500000 mod 4 = 0 /\
    (fun a => (ATask.chunkOffset a, ATask.chunkBytes a)) <$> tasks_ w1 =
      [(0, 875000); (875000, 875000); (1750000, 875000); (2625000, 875000 + 0)] /\
    (forall a, a ∈ tasks_ w1 ->
       job a = Some (dst + ATask.chunkOffset a, src + ATask.chunkOffset a,
                     ATask.chunkBytes a)) /\
    (forall p, 0 <= p < 3500000 ->
       exists (i : nat) a, tasks_ w1 !! i = Some a /\ covers a p /\
         forall (j : nat) b, tasks_ w1 !! j = Some b -> covers b p -> j = i) /\
    (forall a p, a ∈ tasks_ w1 -> covers a p -> 0 <= p < 3500000).
Proof.
  intros Hd Hs.
  assert (Hch : chosen 3500000 (new 4 m sched) = 4) by reflexivity.
  assert (Hidle : idle (new 4 m sched)) by (apply new_idle; rewrite modulus_val; lia).
  assert (Hb : 0 <= 3500000 < SizeT.modulus) by (rewrite modulus_val; lia).
  assert (Hu : 4 < SizeT.modulus) by (rewrite modulus_val; lia).
  eexists. split; [apply SetUp_parallel; (assumption || lia) |].
  rewrite Hch. cbn [usedTaskCount_ tasks_ with_tasks with_usedTaskCount new].
  pose proof (configured_slots dst src 3500000 4 _ Hidle) as Hcfg.
  cbn [tasks_ new] in Hcfg.
  assert (Hlen : length (ATask.SetUp dst src 3500000 4 <$> CreateTasks 4) = 4%nat)
    by reflexivity.
  split; [reflexivity |]. split; [reflexivity |]. split; [reflexivity |].
  split; [reflexivity |]. split; [| split].
  - intros a Ha. apply list_elem_of_lookup_1 in Ha. destruct Ha as [i Hi].
    pose proof (lookup_lt_Some _ _ _ Hi) as Hlt. rewrite Hlen in Hlt.
    destruct (Hcfg i a Hi) as (Hc & Hda & Hsa).
    rewrite (job_used 3500000 4 (Z.of_nat i) a Hc) by lia.
    rewrite Hda, Hsa. reflexivity.
  - intros p Hp.
    destruct (chunk_cover 3500000 4 p Hb ltac:(lia) Hp) as (i & Hi & Hcov).
    destruct (lookup_lt_is_Some_2 (ATask.SetUp dst src 3500000 4 <$> CreateTasks 4)
                (Z.to_nat i)) as [a Ha]; [rewrite Hlen; lia |].
    destruct (Hcfg _ a Ha) as (Hc & _). rewrite Z2Nat.id in Hc by lia.
    exists (Z.to_nat i), a. split; [exact Ha |]. split; [apply Hcov; exact Hc |].
    intros j b Hj Hcb.
    pose proof (lookup_lt_Some _ _ _ Hj) as Hlt. rewrite Hlen in Hlt.
    destruct (Hcfg j b Hj) as (Hcj & _).
    assert (Z.of_nat j = i); [| lia].
    apply (chunk_disjoint 3500000 4 (Z.of_nat j) i b a p); auto; lia.
  - intros a p Ha Hcov. apply list_elem_of_lookup_1 in Ha. destruct Ha as [i Hi].
    pose proof (lookup_lt_Some _ _ _ Hi) as Hlt. rewrite Hlen in Hlt.
    destruct (Hcfg i a Hi) as (Hc & _).
    destruct (chunk_inside 3500000 4 (Z.of_nat i) a Hc Hb ltac:(lia) Hu)
      as (H0 & H1 & H2).
    unfold covers in Hcov. lia.
Qed.

(** C10: on the degenerate path [SetUp] returns before it configures the
    tasks: every task slot keeps the fields the previous invocation left,
    only the task set's own used count changes (to 1), and the pool and
    the semaphore are not touched. [Execute] and [Wait] return at once, so
    no task runs. Without that test the base class would submit slot 0,
    and the pool would run its task on the parameters it still holds from
    the previous invocation. *)
Theorem degenerate_SetUp_keeps_tasks w dst src bytes :
  precondition dst src bytes -> chosen bytes w = 1 ->
  exists w1,
    SetUp dst src bytes w = OK w1 /\
    tasks_ w1 = tasks_ w /\
    usedTaskCount_ w1 = 1 /\
    pool_ w1 = pool_ w /\ semaphore_ w1 = semaphore_ w /\
    trace w1 = trace w /\ oracle w1 = oracle w /\
    Execute w1 = OK w1 /\
    Wait w1 = OK w1 /\
    exists a0 w2,
      tasks_ w1 !! 0%nat = Some a0 /\
      TaskSet_Execute w1 = OK w2 /\
      pool_ w2 = pool_ w ++ [0%nat] /\
      (pool_ w = [] ->
       worker_step w2 =
         do m <- ATask.Execute a0 (heap w1);
         OK (mk m (tasks_ w) 1 (semaphore_ w + 1) [] (tl (oracle w))
               (trace w ++ [EvSubmit 0%nat] ++ [EvSignal 0%nat]))).
Proof.
  intros Hpre Hone.
  destruct (SetUp_degenerate dst src bytes w Hpre Hone) as (m & Hm & HS).
  eexists. split; [exact HS |].
  do 6 (split; [reflexivity |]).
  split; [reflexivity |]. split; [reflexivity |].
  assert (Hlen : (0 < length (tasks_ w))%nat).
  { unfold chosen in Hone. lia. }
  destruct (lookup_lt_is_Some_2 (tasks_ w) 0%nat Hlen) as [a0 Ha0].
  assert (Hslots : used_slots (with_heap m (with_usedTaskCount 1 w)) = [0%nat]).
  { unfold used_slots. cbn [usedTaskCount_ tasks_ with_heap with_usedTaskCount].
    rewrite take_seq. replace (Z.to_nat 1 `min` length (tasks_ w))%nat with 1%nat by lia.
    reflexivity. }
  exists a0. eexists. split; [exact Ha0 |].
  split; [unfold TaskSet_Execute; rewrite Hslots; reflexivity |].
  cbn [pool_ heap tasks_ usedTaskCount_ semaphore_ oracle trace
       with_heap with_usedTaskCount].
  split; [reflexivity |].
  intros Hnil. unfold worker_step.
  cbn [pool_ heap tasks_ usedTaskCount_ semaphore_ oracle trace
       with_heap with_usedTaskCount].
  rewrite Hnil. cbn [app length]. rewrite Nat.mod_1_r.
  cbn [lookup list_lookup]. rewrite Ha0. cbn [fmap list_fmap app].
  rewrite <- app_assoc. reflexivity.
Qed.

(** * The properties at concrete inputs *)

Ltac size_bounds := rewrite ?modulus_val; cbn [length]; lia.

Lemma sample_set_idle : idle sample_set.
Proof. apply new_idle. size_bounds. Qed.

Lemma sample_used_idle : idle sample_used.
Proof.
  split; cbn [sample_used tasks_ pool_ semaphore_]; try reflexivity.
  - rewrite modulus_val. cbn. lia.
  - intros i a Hi. destruct (configured_slots buf_d buf_s 3500000 4
      (new 4 sample_heap []) (new_idle 4 sample_heap [] ltac:(size_bounds)) i a Hi)
      as ((Hidx & _) & _).
    exact Hidx.
Qed.

Lemma sample_pre bytes :
  0 < bytes <= 5000000 -> precondition buf_d buf_s bytes.
Proof.
  intros Hb. split.
  - discriminate.
  - discriminate.
  - rewrite modulus_val. lia.
  - apply overlap_false. unfold buf_d, buf_s. lia.
Qed.

Lemma MemCopy_correct_witness :
  idle sample_set /\ precondition buf_d buf_s 3500000 /\
  exists w', MemCopy buf_d buf_s 3500000 sample_set = OK w' /\
    forall p, 0 <= p < 3500000 ->
      heap w' (buf_d + p) = heap sample_set (buf_s + p).
Proof.
  split; [exact sample_set_idle |].
  split; [apply sample_pre; lia |].
  apply (MemCopy_correct sample_set buf_d buf_s 3500000).
  - exact sample_set_idle.
  - apply sample_pre. lia.
Defined.

Lemma SetUp_usedTaskCount_witness :
  0 < 3500000 < SizeT.modulus /\
  1 <= Z.of_nat (length (tasks_ sample_set)) /\
  (forall w1, SetUp buf_d buf_s 3500000 sample_set = OK w1 ->
     usedTaskCount_ w1 =
       Z.min (1 + 3500000 / 1000000) (Z.of_nat (length (tasks_ sample_set)))) /\
  (buf_d <> NULL -> buf_s <> NULL -> overlap buf_d buf_s 3500000 = false ->
     exists w1, SetUp buf_d buf_s 3500000 sample_set = OK w1).
Proof.
  split; [rewrite modulus_val; lia |].
  split; [cbn; lia |].
  apply (SetUp_usedTaskCount sample_set buf_d buf_s 3500000).
  - rewrite modulus_val. lia.
  - cbn. lia.
Defined.

Lemma SetUp_usedTaskCount_bounds_witness :
  0 < 1000000 < SizeT.modulus /\
  1 <= Z.of_nat (length (tasks_ sample_used)) /\
  (forall w1, SetUp buf_d buf_s 1000000 sample_used = OK w1 ->
     1 <= usedTaskCount_ w1 <= Z.of_nat (length (tasks_ w1))) /\
  (buf_d <> NULL -> buf_s <> NULL -> overlap buf_d buf_s 1000000 = false ->
     exists w1, SetUp buf_d buf_s 1000000 sample_used = OK w1).
Proof.
  split; [rewrite modulus_val; lia |].
  split; [cbn; lia |].
  apply (SetUp_usedTaskCount_bounds sample_used buf_d buf_s 1000000).
  - rewrite modulus_val. lia.
  - cbn. lia.
Defined.

Lemma chunks_partition_witness :
  0 < 3500003 < SizeT.modulus /\
  1 < 4 < SizeT.modulus /\
  (forall i, 0 <= i < 4 -> configured 3500003 4 i (sample_task i)) /\
  ATask.chunkBytes (sample_task (4 - 1)) = 3500003 / 4 + 3500003 mod 4 /\
  (forall p, 0 <= p < 3500003 ->
     exists i, 0 <= i < 4 /\ covers (sample_task i) p /\
       forall j, 0 <= j < 4 -> covers (sample_task j) p -> j = i).
Proof.
  assert (Hb : 0 < 3500003 < SizeT.modulus) by (rewrite modulus_val; lia).
  assert (Hu : 1 < 4 < SizeT.modulus) by (rewrite modulus_val; lia).
  assert (Hc : forall i, 0 <= i < 4 -> configured 3500003 4 i (sample_task i))
    by (intros i _; repeat split).
  split; [exact Hb |]. split; [exact Hu |]. split; [exact Hc |].
  destruct (chunks_partition 3500003 4 sample_task Hb Hu Hc)
    as (_ & _ & _ & Hlast & _ & Hcover).
  split; [exact Hlast | exact Hcover].
Defined.

Lemma degenerate_path_witness :
  1 <= Z.of_nat (length (tasks_ sample_used)) /\
  precondition buf_d buf_s 500000 /\
  chosen 500000 sample_used = 1 /\
  exists w1,
    SetUp buf_d buf_s 500000 sample_used = OK w1 /\
    trace w1 = trace sample_used /\
    Execute w1 = OK w1 /\
    Wait w1 = OK w1 /\
    MemCopy buf_d buf_s 500000 sample_used = OK w1 /\
    (forall a, heap w1 a =
       copy_bytes (Z.to_nat 500000) buf_d buf_s (heap sample_used) a).
Proof.
  assert (Hp : 1 <= Z.of_nat (length (tasks_ sample_used))) by (cbn; lia).
  assert (Hpre : precondition buf_d buf_s 500000) by (apply sample_pre; lia).
  split; [exact Hp |]. split; [exact Hpre |].
  destruct (degenerate_path sample_used buf_d buf_s 500000 Hp Hpre) as (Hsmall & Hone).
  assert (Hch : chosen 500000 sample_used = 1) by (apply Hsmall; lia).
  split; [exact Hch |].
  destruct (Hone Hch)
    as (w1 & HS & _ & _ & _ & Htr & _ & HE & HW & HM & Hcopy & _).
  exists w1. repeat split; assumption.
Defined.

Lemma unused_task_skips_witness :
  ATask.usedTaskCount_ sample_unused <= ATask.taskIndex_ sample_unused /\
  job sample_unused = None /\
  (forall m, ATask.Execute sample_unused m = OK m).
Proof.
  assert (Hge : ATask.usedTaskCount_ sample_unused <= ATask.taskIndex_ sample_unused)
    by (cbn; lia).
  split; [exact Hge |].
  destruct (unused_task_skips sample_unused Hge) as (Hjob & Hexec & _).
  split; [exact Hjob | exact Hexec].
Defined.

Lemma Wait_threshold_witness :
  idle sample_set /\ precondition buf_d buf_s 3500000 /\
  1 < chosen 3500000 sample_set /\
  exists w1 w2 w3 done,
    SetUp buf_d buf_s 3500000 sample_set = OK w1 /\
    Execute w1 = OK w2 /\
    Wait w2 = OK w3 /\
    usedTaskCount_ w1 = chosen 3500000 sample_set /\
    Wait w2 = Semaphore_Wait (usedTaskCount_ w1) w2 /\
    trace w3 = trace w2 ++ [EvWait (usedTaskCount_ w1)] ++ (EvSignal <$> done) /\
    Z.of_nat (length done) = usedTaskCount_ w1 /\
    done ≡ₚ seq 0 (Z.to_nat (usedTaskCount_ w1)) /\
    semaphore_ w3 = 0 /\ pool_ w3 = [].
Proof.
  assert (Hpre : precondition buf_d buf_s 3500000) by (apply sample_pre; lia).
  assert (Hgt : 1 < chosen 3500000 sample_set) by reflexivity.
  split; [exact sample_set_idle |]. split; [exact Hpre |]. split; [exact Hgt |].
  exact (Wait_threshold sample_set buf_d buf_s 3500000 sample_set_idle Hpre Hgt).
Defined.

Lemma MemCopy_idempotent_witness :
  idle sample_set /\ precondition buf_d buf_s 3500000 /\
  exists w1, MemCopy buf_d buf_s 3500000 sample_set = OK w1 /\
    forall n, exists wn,
      MemCopy_times (S n) buf_d buf_s 3500000 sample_set = OK wn /\
      (forall a, heap wn a = heap w1 a) /\
      (forall p, 0 <= p < 3500000 ->
         heap wn (buf_d + p) = heap sample_set (buf_s + p)).
Proof.
  assert (Hpre : precondition buf_d buf_s 3500000) by (apply sample_pre; lia).
  split; [exact sample_set_idle |]. split; [exact Hpre |].
  exact (MemCopy_idempotent sample_set buf_d buf_s 3500000 sample_set_idle Hpre).
Defined.

Lemma scenario_four_tasks_witness :
  buf_d <> NULL /\ buf_s <> NULL /\
  exists w1,
    SetUp buf_d buf_s 3500000 (new 4 sample_heap [2; 0; 5]%nat) = OK w1 /\
    usedTaskCount_ w1 = 4 /\
    (fun a => (ATask.chunkOffset a, ATask.chunkBytes a)) <$> tasks_ w1 =
      [(0, 875000); (875000, 875000); (1750000, 875000); (2625000, 875000 + 0)].
Proof.
  assert (Hd : buf_d <> NULL) by discriminate.
  assert (Hs : buf_s <> NULL) by discriminate.
  split; [exact Hd |]. split; [exact Hs |].
  destruct (scenario_four_tasks sample_heap [2; 0; 5]%nat buf_d buf_s Hd Hs)
    as (w1 & HS & _ & Hused & _ & Hchunks & _).
  exists w1. repeat split; assumption.
Defined.

Lemma degenerate_SetUp_keeps_tasks_witness :
  precondition buf_d buf_s 500000 /\
  chosen 500000 sample_used = 1 /\
  exists w1,
    SetUp buf_d buf_s 500000 sample_used = OK w1 /\
    tasks_ w1 = tasks_ sample_used /\
    usedTaskCount_ w1 = 1 /\
    Execute w1 = OK w1 /\
    Wait w1 = OK w1.
Proof.
  assert (Hpre : precondition buf_d buf_s 500000) by (apply sample_pre; lia).
  assert (Hch : chosen 500000 sample_used = 1) by reflexivity.
  split; [exact Hpre |]. split; [exact Hch |].
  destruct (degenerate_SetUp_keeps_tasks sample_used buf_d buf_s 500000 Hpre Hch)
    as (w1 & HS & Ht & Hu & _ & _ & _ & _ & HE & HW & _).
  exists w1. repeat split; assumption.
Defined.

(** ** Runs of the model *)

(** A copy of 3500000 bytes on four threads, the pool running slot 2
    first: four submissions, one wait for four signals, four signals. *)
Example parallel_run_trace :
  summary (MemCopy buf_d buf_s 3500000 sample_set) =
    Some (4, 0, [],
          [EvSubmit 0; EvSubmit 1; EvSubmit 2; EvSubmit 3; EvWait 4;
           EvSignal 2; EvSignal 0; EvSignal 3; EvSignal 1]%nat).
Proof. vm_compute. reflexivity. Qed.

(** A small copy neither submits nor waits. *)
Example degenerate_run_trace :
  summary (MemCopy buf_d buf_s 500000 sample_set) = Some (1, 0, [], []).
Proof. vm_compute. reflexivity. Qed.

(** Overlapping buffers break the contract of [memcpy]. *)
Example overlapping_buffers :
  summary (MemCopy buf_d (buf_d + 1) 500000 sample_set) = None.
Proof. vm_compute. reflexivity. Qed.

(** A large copy into [buf_d], then a small one that refills its source
    [buf_s]. The small copy leaves [buf_d] alone; were the base class to
    dispatch after the degenerate [SetUp], the task of slot 0 would copy
    the refilled source into [buf_d] once more. *)
Example stale_task_parameters :
  peek buf_d (do wA <- MemCopy buf_d buf_s 3500000 sample_set;
              MemCopy buf_s buf_x 500 wA) = Some x01 /\
  peek buf_d (do wA <- MemCopy buf_d buf_s 3500000 sample_set;
              do w1 <- SetUp buf_s buf_x 500 wA;
              do w2 <- TaskSet_Execute w1;
              Semaphore_Wait (usedTaskCount_ w2) w2) = Some x02.
Proof. split; vm_compute; reflexivity. Qed.

(** * Further properties of the copy *)

(** ** The memory a call leaves *)

(** The task slots and the trace a call of [MemCopy] leaves. *)
Lemma MemCopy_state w dst src bytes :
  idle w -> precondition dst src bytes ->
  exists w',
    MemCopy dst src bytes w = OK w' /\
    tasks_ w' =
      (if chosen bytes w =? 1 then tasks_ w
       else ATask.SetUp dst src bytes (chosen bytes w) <$> tasks_ w) /\
    (chosen bytes w = 1 -> trace w' = trace w) /\
    (chosen bytes w <> 1 ->
     exists done,
       done ≡ₚ seq 0 (Z.to_nat (chosen bytes w)) /\
       trace w' =
         trace w ++ (EvSubmit <$> seq 0 (Z.to_nat (chosen bytes w))) ++
         [EvWait (chosen bytes w)] ++ (EvSignal <$> done)).
Proof.
  intros Hidle Hpre.
  destruct (Z.eq_dec (chosen bytes w) 1) as [Hone | Hmany].
  - pose proof Hpre as [Hd Hs Hb Hov].
    assert (Hp : 1 <= Z.of_nat (length (tasks_ w)))
      by (unfold chosen in Hone; lia).
    destruct (SetUp_degenerate dst src bytes w Hpre Hone) as (m & _ & HS).
    eexists. split.
    { unfold MemCopy. rewrite HS. cbn [bind]. unfold Execute.
      cbn [usedTaskCount_ with_heap with_usedTaskCount Z.eqb Pos.eqb bind].
      unfold Wait. cbn [usedTaskCount_ with_heap with_usedTaskCount Z.eqb Pos.eqb].
      reflexivity. }
    rewrite Hone. cbn [tasks_ trace with_heap with_usedTaskCount Z.eqb Pos.eqb].
    split; [reflexivity |]. split; [reflexivity | contradiction].
  - destruct (parallel_run w dst src bytes Hidle Hpre Hmany)
      as (HS & HE & _ & done & wr & R & Hnil & HW).
    pose proof (idle_pool_size w Hidle) as Hp.
    destruct Hpre as [Hd Hs Hb Hov].
    pose proof (chosen_bounds bytes w ltac:(lia) ltac:(lia)) as Hbound.
    destruct R as [Rtasks _ _ Rperm Rtrace _ _].
    rewrite Hnil, app_nil_r in Rperm.
    eexists. split.
    { unfold MemCopy. rewrite HS. cbn [bind]. rewrite HE. cbn [bind]. exact HW. }
    cbn [tasks_ trace]. apply Z.eqb_neq in Hmany as Hneq. rewrite Hneq.
    split; [exact Rtasks |]. split; [contradiction |].
    intros _. exists done. split; [exact Rperm |].
    rewrite Rtrace. cbn [trace]. rewrite <- !app_assoc. reflexivity.
Qed.

(** X1: on every path and under every schedule, the memory [MemCopy]
    leaves is, address by address, the memory one [memcpy] of the whole
    buffer leaves: [dst[0..bytes)] is copied and no other byte changes. *)
Theorem MemCopy_is_memcpy w dst src bytes :
  idle w -> precondition dst src bytes ->
  exists w' m,
    MemCopy dst src bytes w = OK w' /\
    memcpy (heap w) dst src bytes = OK m /\
    forall a, heap w' a = m a.
Proof.
  intros Hidle Hpre.
  destruct (MemCopy_spec w dst src bytes Hidle Hpre) as (w' & HM & _ & _ & Hc & Hf).
  destruct Hpre as [_ _ Hb Hov].
  eexists w', _. split; [exact HM |].
  split; [apply memcpy_disjoint; exact Hov |].
  intros a. cbn beta. destruct (in_block dst bytes a) eqn:Hin.
  - apply in_block_true in Hin.
    replace a with (dst + (a - dst)) at 1 by lia.
    rewrite Hc by lia. reflexivity.
  - apply Hf. exact Hin.
Qed.

(** X2: the result does not depend on the order in which the pool runs
    the tasks: under any two schedulers the calls return the same memory,
    the same task slots and the same used count. *)
Theorem MemCopy_schedule_independent w dst src bytes (sched : list nat) :
  idle w -> precondition dst src bytes ->
  exists w1 w2,
    MemCopy dst src bytes w = OK w1 /\
    MemCopy dst src bytes (with_oracle sched w) = OK w2 /\
    (forall a, heap w1 a = heap w2 a) /\
    tasks_ w1 = tasks_ w2 /\
    usedTaskCount_ w1 = usedTaskCount_ w2.
Proof.
  intros Hidle Hpre.
  assert (Hidle' : idle (with_oracle sched w)).
  { destruct Hidle as [H1 H2 H3 H4]. split; assumption. }
  destruct (MemCopy_spec w dst src bytes Hidle Hpre)
    as (w1 & HM1 & _ & Hu1 & Hc1 & Hf1).
  destruct (MemCopy_spec _ dst src bytes Hidle' Hpre)
    as (w2 & HM2 & _ & Hu2 & Hc2 & Hf2).
  destruct (MemCopy_state w dst src bytes Hidle Hpre) as (w1' & HM1' & Ht1 & _).
  destruct (MemCopy_state _ dst src bytes Hidle' Hpre) as (w2' & HM2' & Ht2 & _).
  assert (w1' = w1) by congruence. assert (w2' = w2) by congruence. subst w1' w2'.
  exists w1, w2. split; [exact HM1 |]. split; [exact HM2 |].
  split; [| split].
  - intros a. destruct (in_block dst bytes a) eqn:Hin.
    + apply in_block_true in Hin.
      replace a with (dst + (a - dst)) by lia.
      rewrite Hc1, Hc2 by lia. reflexivity.
    + rewrite Hf1, Hf2 by exact Hin. reflexivity.
  - rewrite Ht1, Ht2. reflexivity.
  - rewrite Hu1, Hu2. reflexivity.
Qed.

(** X3: a call of [MemCopy] keeps the task set at rest and never
    reallocates or renumbers the task slots: their number, and the
    [taskIndex_] and [totalTaskCount_] of each, are what they were. *)
Theorem MemCopy_keeps_slots w dst src bytes :
  idle w -> precondition dst src bytes ->
  exists w',
    MemCopy dst src bytes w = OK w' /\
    idle w' /\
    length (tasks_ w') = length (tasks_ w) /\
    forall (i : nat) a, tasks_ w !! i = Some a ->
      exists a', tasks_ w' !! i = Some a' /\
        ATask.taskIndex_ a' = ATask.taskIndex_ a /\
        ATask.totalTaskCount_ a' = ATask.totalTaskCount_ a.
Proof.
  intros Hidle Hpre.
  destruct (MemCopy_spec w dst src bytes Hidle Hpre) as (w' & HM & Hidle' & _).
  destruct (MemCopy_state w dst src bytes Hidle Hpre) as (w'' & HM' & Ht & _).
  assert (w'' = w') by congruence. subst w''.
  exists w'. split; [exact HM |]. split; [exact Hidle' |].
  rewrite Ht. destruct (chosen bytes w =? 1).
  - split; [reflexivity |]. intros i a Ha. exists a. repeat split. exact Ha.
  - split; [apply length_fmap |]. intros i a Ha.
    exists (ATask.SetUp dst src bytes (chosen bytes w) a).
    rewrite list_lookup_fmap, Ha. repeat split.
Qed.

(** X4: calls compose. After a copy of [n] bytes from [a] to [b] and a
    copy of the first [m <= n] bytes from [b] to [c], whichever paths the
    two sizes take, [c[0..m)] holds what [a[0..m)] held at the start. *)
Theorem MemCopy_chain w a b c n m :
  idle w -> precondition b a n -> precondition c b m -> m <= n ->
  exists w1 w2,
    MemCopy b a n w = OK w1 /\
    MemCopy c b m w1 = OK w2 /\
    forall p, 0 <= p < m -> heap w2 (c + p) = heap w (a + p).
Proof.
  intros Hidle Hpre1 Hpre2 Hmn.
  destruct (MemCopy_spec w b a n Hidle Hpre1) as (w1 & HM1 & Hidle1 & _ & Hc1 & _).
  destruct (MemCopy_spec w1 c b m Hidle1 Hpre2) as (w2 & HM2 & _ & _ & Hc2 & _).
  exists w1, w2. split; [exact HM1 |]. split; [exact HM2 |].
  intros p Hp. rewrite Hc2 by exact Hp. apply Hc1. lia.
Qed.

(** ** When the pool is used *)

Lemma chosen_one_iff bytes w :
  0 <= bytes < SizeT.modulus -> 1 <= Z.of_nat (length (tasks_ w)) ->
  chosen bytes w = 1 <-> bytes < 1000000 \/ length (tasks_ w) = 1%nat.
Proof.
  intros Hb Hp. rewrite chosen_val by exact Hb.
  pose proof (Z.div_pos bytes 1000000 ltac:(lia) ltac:(lia)) as Hq.
  split.
  - intros Hmin.
    destruct (Z_lt_le_dec bytes 1000000) as [Hlt | Hge]; [left; exact Hlt | right].
    assert (1 <= bytes / 1000000) by (apply Z.div_le_lower_bound; lia). lia.
  - intros [Hlt | Hone].
    + rewrite Z.div_small by lia. lia.
    + rewrite Hone. lia.
Qed.

(** X5: [MemCopy] bypasses the pool and the semaphore exactly when the
    buffer is shorter than 1000000 bytes or the pool has a single thread;
    a buffer of exactly 1000000 bytes on a larger pool is copied in
    parallel. *)
Theorem MemCopy_bypasses_pool_iff w dst src bytes :
  idle w -> precondition dst src bytes ->
  exists w',
    MemCopy dst src bytes w = OK w' /\
    (trace w' = trace w <-> bytes < 1000000 \/ length (tasks_ w) = 1%nat).
Proof.
  intros Hidle Hpre.
  destruct (MemCopy_state w dst src bytes Hidle Hpre) as (w' & HM & _ & Hone & Hmany).
  exists w'. split; [exact HM |].
  pose proof (idle_pool_size w Hidle) as Hp. destruct Hpre as [_ _ Hb _].
  rewrite <- (chosen_one_iff bytes w) by lia.
  split.
  - intros Htr. destruct (Z.eq_dec (chosen bytes w) 1) as [H1 | Hne]; [exact H1 |].
    exfalso. destruct (Hmany Hne) as (done & _ & Htrace).
    rewrite Htr in Htrace. rewrite <- (app_nil_r (trace w)) in Htrace at 1.
    apply app_inv_head in Htrace. symmetry in Htrace.
    apply app_eq_nil in Htrace. destruct Htrace as [_ Hnil]. discriminate.
  - exact Hone.
Qed.

(** X6: the number of tasks [SetUp] chooses never decreases when the
    buffer grows, and it is the whole pool from
    [(poolSize - 1) * 1000000] bytes on. *)
Theorem used_count_monotone w dst src bytes w1 dst' src' bytes' w1' :
  0 <= bytes <= bytes' -> bytes' < SizeT.modulus ->
  SetUp dst src bytes w = OK w1 ->
  SetUp dst' src' bytes' w = OK w1' ->
  usedTaskCount_ w1 <= usedTaskCount_ w1' /\
  ((Z.of_nat (length (tasks_ w)) - 1) * 1000000 <= bytes ->
   usedTaskCount_ w1 = Z.of_nat (length (tasks_ w))).
Proof.
  intros Hb Hb' HS HS'.
  rewrite (SetUp_stores_chosen _ _ _ _ _ HS), (SetUp_stores_chosen _ _ _ _ _ HS').
  rewrite !chosen_val by lia.
  assert (bytes / 1000000 <= bytes' / 1000000) by (apply Z.div_le_mono; lia).
  split; [lia |].
  intros Hsat.
  assert (Z.of_nat (length (tasks_ w)) - 1 <= bytes / 1000000)
    by (apply Z.div_le_lower_bound; lia).
  lia.
Qed.

(** X7: on the parallel path the work is balanced. Every used task
    copies at least 500000 bytes, the chunk lengths differ by less than
    the task count, and unless the pool size caps the task count no task
    copies as much as [1000000 + usedTaskCount] bytes. *)
Theorem chunk_sizes_balanced w dst src bytes w1 (i : nat) a :
  idle w -> 0 < bytes < SizeT.modulus ->
  SetUp dst src bytes w = OK w1 ->
  usedTaskCount_ w1 <> 1 ->
  tasks_ w1 !! i = Some a ->
  Z.of_nat i < usedTaskCount_ w1 ->
  500000 <= ATask.chunkBytes a /\
  bytes / usedTaskCount_ w1 <= ATask.chunkBytes a
    < bytes / usedTaskCount_ w1 + usedTaskCount_ w1 /\
  (bytes / 1000000 < Z.of_nat (length (tasks_ w)) ->
   ATask.chunkBytes a < 1000000 + usedTaskCount_ w1).
Proof.
  intros Hidle Hb HS Hne Ha Hi.
  pose proof (idle_pool_size w Hidle) as Hp.
  pose proof (SetUp_stores_chosen _ _ _ _ _ HS) as Hu. rewrite Hu in *.
  destruct (SetUp_inv _ _ _ _ _ HS) as [(Hone & _) | (_ & ->)]; [contradiction |].
  cbn [tasks_ with_tasks with_usedTaskCount] in Ha.
  destruct (configured_slots dst src bytes (chosen bytes w) w Hidle i a Ha) as (Hc & _).
  pose proof (chosen_bounds bytes w ltac:(lia) ltac:(lia)) as Hbound.
  pose proof (chosen_val bytes w ltac:(lia)) as Hval.
  set (u := chosen bytes w) in *.
  pose proof (Z.div_pos bytes 1000000 ltac:(lia) ltac:(lia)) as Hq0.
  destruct (div_mod_facts bytes 1000000) as (Hq & _ & Hr & _); [lia | lia |].
  destruct (div_mod_facts bytes u) as (Hdm & Hc0 & Hcr & _); [lia | lia |].
  rewrite (chunkBytes_val bytes u (Z.of_nat i) a Hc) by lia.
  assert (Hlow : (u - 1) * 1000000 <= bytes) by nia.
  assert (H500 : 500000 <= bytes / u).
  { apply Z.div_le_lower_bound; nia. }
  split; [| split].
  - destruct (Z.of_nat i =? u - 1); lia.
  - destruct (Z.of_nat i =? u - 1); lia.
  - intros Hcap. assert (Hu1 : u = 1 + bytes / 1000000) by lia.
    assert (bytes / u < 1000000) by (apply Z.div_lt_upper_bound; nia).
    destruct (Z.of_nat i =? u - 1); lia.
Qed.

(** ** Errors and edge cases *)

Lemma memcpy_error m d s n e : memcpy m d s n = Err e -> e = UndefinedBehaviour.
Proof. unfold memcpy. destruct (overlap d s n); congruence. Qed.

Lemma worker_step_error w e :
  worker_step w = Err e -> e = Deadlock \/ e = UndefinedBehaviour.
Proof.
  unfold worker_step.
  destruct (pool_ w !! _) as [slot |]; [| intros [= <-]; left; reflexivity].
  destruct (tasks_ w !! slot) as [a |]; [| intros [= <-]; right; reflexivity].
  rewrite Execute_job.
  destruct (job a) as [[[d s] n] |]; [| discriminate].
  destruct (memcpy (heap w) d s n) as [m |] eqn:Hm; [discriminate |].
  cbn [bind]. intros [= <-]. right. exact (memcpy_error _ _ _ _ _ Hm).
Qed.

Lemma wait_loop_error fuel n :
  forall w e, Semaphore_Wait_loop fuel n w = Err e ->
    e = Deadlock \/ e = UndefinedBehaviour.
Proof.
  induction fuel as [| fuel IH]; intros w e; cbn [Semaphore_Wait_loop];
    destruct (n <=? semaphore_ w); try discriminate.
  - intros [= <-]. left. reflexivity.
  - destruct (worker_step w) as [w' |] eqn:Hstep; cbn [bind].
    + apply IH.
    + intros [= <-]. exact (worker_step_error _ _ Hstep).
Qed.

(** X8: [MemCopy] stops on an assertion exactly when the destination is
    null, the source is null or the length is zero; no later step of the
    copy, on either path, fails an assertion. *)
Theorem MemCopy_assertion_iff w dst src bytes :
  MemCopy dst src bytes w = Err AssertionFailed <->
  dst = NULL \/ src = NULL \/ bytes <= 0.
Proof.
  split.
  - intros HM.
    destruct (Z.eq_dec dst NULL) as [Hd | Hd]; [left; exact Hd |].
    destruct (Z.eq_dec src NULL) as [Hs | Hs]; [right; left; exact Hs |].
    destruct (Z_le_gt_dec bytes 0) as [Hb | Hb]; [right; right; exact Hb |].
    exfalso. unfold MemCopy in HM.
    destruct (SetUp dst src bytes w) as [w1 | e] eqn:HS; cbn [bind] in HM.
    + unfold Execute in HM.
      destruct (usedTaskCount_ w1 =? 1) eqn:Hone; cbn [bind] in HM.
      * unfold Wait in HM. rewrite Hone in HM. discriminate.
      * unfold TaskSet_Execute in HM. cbn [bind] in HM. unfold Wait in HM.
        cbn [usedTaskCount_] in HM. rewrite Hone in HM.
        unfold Semaphore_Wait in HM.
        destruct (wait_loop_error _ _ _ _ HM); discriminate.
    + injection HM as ->.
      destruct (Z.eq_dec (chosen bytes w) 1) as [H1 | Hne].
      * unfold SetUp in HS. fold (chosen bytes w) in HS.
        destruct (Z.eqb_spec dst NULL); [contradiction |].
        destruct (Z.eqb_spec src NULL); [contradiction |].
        destruct (Z.ltb_spec 0 bytes); [| lia]. cbn [negb assert bind] in HS.
        rewrite H1 in HS. cbn [Z.eqb Pos.eqb] in HS.
        destruct (memcpy _ dst src bytes) as [m | e'] eqn:Hm; [discriminate |].
        cbn [bind] in HS. injection HS as ->.
        apply memcpy_error in Hm. discriminate.
      * rewrite SetUp_parallel in HS by (assumption || lia). discriminate.
  - unfold MemCopy, SetUp. intros [-> | [-> | Hb]].
    + reflexivity.
    + destruct (negb (dst =? NULL)); reflexivity.
    + destruct (negb (dst =? NULL)), (negb (src =? NULL)); try reflexivity.
      destruct (Z.ltb_spec 0 bytes); [lia | reflexivity].
Qed.

(** X9: a task set without task slots. [SetUp] stores a used count of 0,
    which is not the 1 that selects the inline copy, and there is no task
    to run: [MemCopy] returns, having waited for zero signals, and the
    memory is untouched. Nothing is copied. *)
Theorem MemCopy_without_slots w dst src bytes :
  tasks_ w = [] -> 0 <= semaphore_ w ->
  dst <> NULL -> src <> NULL -> 0 < bytes < SizeT.modulus ->
  (exists w1, SetUp dst src bytes w = OK w1 /\
     usedTaskCount_ w1 = 0 /\ heap w1 = heap w) /\
  exists w',
    MemCopy dst src bytes w = OK w' /\
    heap w' = heap w /\
    usedTaskCount_ w' = 0 /\
    pool_ w' = pool_ w /\
    trace w' = trace w ++ [EvWait 0].
Proof.
  intros Hnil Hsem Hd Hs Hb.
  assert (Hch : chosen bytes w = 0).
  { rewrite chosen_val by lia. rewrite Hnil. cbn [length].
    pose proof (Z.div_pos bytes 1000000 ltac:(lia) ltac:(lia)). lia. }
  pose proof (SetUp_parallel dst src bytes w Hd Hs ltac:(lia) ltac:(lia)) as HS.
  rewrite Hch, Hnil in HS. cbn [fmap list_fmap] in HS.
  split.
  { eexists. split; [exact HS |]. split; reflexivity. }
  assert (Hloop : forall fuel w0, 0 <= semaphore_ w0 ->
            Semaphore_Wait_loop fuel 0 w0 =
              OK (mk (heap w0) (tasks_ w0) (usedTaskCount_ w0) (semaphore_ w0 - 0)
                    (pool_ w0) (oracle w0) (trace w0))).
  { intros fuel w0 H0. destruct fuel; cbn [Semaphore_Wait_loop];
      destruct (Z.leb_spec 0 (semaphore_ w0)); try lia; reflexivity. }
  eexists. split.
  { unfold MemCopy. rewrite HS. cbn [bind]. unfold Execute, TaskSet_Execute, used_slots.
    cbn [usedTaskCount_ tasks_ heap semaphore_ pool_ oracle trace
         with_tasks with_usedTaskCount Z.eqb bind length seq].
    unfold Wait, Semaphore_Wait.
    cbn [usedTaskCount_ tasks_ heap semaphore_ pool_ oracle trace Z.eqb].
    apply Hloop. exact Hsem. }
  cbn [heap usedTaskCount_ pool_ trace fmap list_fmap take Z.to_nat].
  rewrite !app_nil_r. repeat split.
Qed.

(** ** One task, and two *)

(** The memory a used task leaves. *)
Lemma Execute_used dst src bytes u i a m :
  configured bytes u i a -> ATask.dst_ a = dst -> ATask.src_ a = src ->
  0 <= bytes < SizeT.modulus -> 0 <= i < u -> u < SizeT.modulus ->
  overlap dst src bytes = false ->
  exists m',
    ATask.Execute a m = OK m' /\
    forall x, m' x =
      if in_block (dst + ATask.chunkOffset a) (ATask.chunkBytes a) x
      then m (src + (x - dst)) else m x.
Proof.
  intros Hc Hd Hs Hb Hi Hu Hov.
  destruct (chunk_inside bytes u i a Hc Hb Hi Hu) as (Hoff & Hlen & Hend).
  rewrite Execute_job, (job_used bytes u i a Hc) by lia.
  rewrite Hd, Hs.
  rewrite memcpy_disjoint by (apply (overlap_chunk dst src bytes); assumption).
  eexists. split; [reflexivity |]. intros x. cbn beta.
  destruct (in_block _ _ x); [f_equal; lia | reflexivity].
Qed.

(** X10: a used task copies its own chunk and nothing else: the bytes it
    writes lie inside [dst[0..bytes)], also for the last task with its
    longer chunk, and every byte outside its chunk, the source buffer
    included, is left as it was. *)
Theorem task_copies_own_chunk dst src bytes u i a m :
  configured bytes u i a -> ATask.dst_ a = dst -> ATask.src_ a = src ->
  0 <= bytes < SizeT.modulus -> 0 <= i < u -> u < SizeT.modulus ->
  overlap dst src bytes = false ->
  exists m',
    ATask.Execute a m = OK m' /\
    (forall p, covers a p -> 0 <= p < bytes /\ m' (dst + p) = m (src + p)) /\
    (forall x, m' x <> m x -> exists p, covers a p /\ x = dst + p) /\
    (forall p, 0 <= p < bytes -> m' (src + p) = m (src + p)).
Proof.
  intros Hc Hd Hs Hb Hi Hu Hov.
  destruct (chunk_inside bytes u i a Hc Hb Hi Hu) as (Hoff & Hlen & Hend).
  destruct (Execute_used dst src bytes u i a m Hc Hd Hs Hb Hi Hu Hov) as (m' & HE & Hm').
  exists m'. split; [exact HE |].
  apply overlap_false in Hov. unfold covers.
  split; [| split].
  - intros p Hp. split; [lia |]. rewrite Hm'.
    rewrite (proj2 (in_block_true _ _ _)) by lia. f_equal. lia.
  - intros x Hx. rewrite Hm' in Hx.
    destruct (in_block _ _ x) eqn:Hin; [| contradiction].
    apply in_block_true in Hin. exists (x - dst). split; lia.
  - intros p Hp. rewrite Hm'.
    rewrite (proj2 (in_block_false _ _ _)) by lia. reflexivity.
Qed.

(** X11: tasks of one copy commute. Whichever of two tasks runs first,
    both run without error and the memory after both is the same at every
    address; this is what lets the pool run them in any order. *)
Theorem tasks_commute dst src bytes u i j a b m :
  configured bytes u i a -> ATask.dst_ a = dst -> ATask.src_ a = src ->
  configured bytes u j b -> ATask.dst_ b = dst -> ATask.src_ b = src ->
  0 <= bytes < SizeT.modulus -> 0 <= i < u -> 0 <= j < u -> u < SizeT.modulus ->
  overlap dst src bytes = false ->
  exists ma mab mb mba,
    ATask.Execute a m = OK ma /\ ATask.Execute b ma = OK mab /\
    ATask.Execute b m = OK mb /\ ATask.Execute a mb = OK mba /\
    forall x, mab x = mba x.
Proof.
  intros Hca Hda Hsa Hcb Hdb Hsb Hb Hi Hj Hu Hov.
  destruct (chunk_inside bytes u i a Hca Hb Hi Hu) as (Hoa & Hla & Hea).
  destruct (chunk_inside bytes u j b Hcb Hb Hj Hu) as (Hob & Hlb & Heb).
  destruct (Execute_used dst src bytes u i a m Hca Hda Hsa Hb Hi Hu Hov) as (ma & HEa & Hma).
  destruct (Execute_used dst src bytes u j b ma Hcb Hdb Hsb Hb Hj Hu Hov) as (mab & HEab & Hmab).
  destruct (Execute_used dst src bytes u j b m Hcb Hdb Hsb Hb Hj Hu Hov) as (mb & HEb & Hmb).
  destruct (Execute_used dst src bytes u i a mb Hca Hda Hsa Hb Hi Hu Hov) as (mba & HEba & Hmba).
  exists ma, mab, mb, mba. repeat (split; [assumption |]).
  apply overlap_false in Hov.
  intros x. rewrite Hmab, Hmba, !Hma, !Hmb.
  destruct (in_block (dst + ATask.chunkOffset a) (ATask.chunkBytes a) x) eqn:Hina;
    destruct (in_block (dst + ATask.chunkOffset b) (ATask.chunkBytes b) x) eqn:Hinb;
    try reflexivity;
    try apply in_block_true in Hina; try apply in_block_true in Hinb.
  - rewrite (proj2 (in_block_false _ _ (src + (x - dst)))) by lia.
    rewrite (proj2 (in_block_false _ _ (src + (x - dst)))) by lia. reflexivity.
  - rewrite (proj2 (in_block_false _ _ (src + (x - dst)))) by lia. reflexivity.
  - rewrite (proj2 (in_block_false _ _ (src + (x - dst)))) by lia. reflexivity.
Qed.

(** * Properties of the digital output port *)

Section Port.

Variable E : NIDAQ.Env.

Lemma StopTask_cases p :
  (NIDAQ.task_ p = 0 /\ NIDAQ.StopTask E p = (NIDAQ.DEVICE_OK E, p)) \/
  (NIDAQ.task_ p <> 0 /\
   let r := NIDAQ.driver E (NIDAQ.calls p) (NIDAQ.DAQmxClearTask (NIDAQ.task_ p)) in
   let p1 := snd (NIDAQ.daqmx E (NIDAQ.DAQmxClearTask (NIDAQ.task_ p)) p) in
   (NIDAQ.nierr r <> 0 /\
    NIDAQ.StopTask E p = (NIDAQ.TranslateNIError E (NIDAQ.nierr r), p1)) \/
   (NIDAQ.nierr r = 0 /\
    NIDAQ.StopTask E p =
      (NIDAQ.DEVICE_OK E,
       NIDAQ.LogMessage NIDAQ.StoppedTask (NIDAQ.with_task 0 p1)))).
Proof.
  unfold NIDAQ.StopTask, NIDAQ.daqmx.
  destruct (Z.eqb_spec (NIDAQ.task_ p) 0) as [H0 | Hne]; [left; split; auto |].
  right. split; [exact Hne |]. cbn zeta. cbn [snd].
  destruct (Z.eqb_spec (NIDAQ.nierr (NIDAQ.driver E (NIDAQ.calls p)
              (NIDAQ.DAQmxClearTask (NIDAQ.task_ p)))) 0) as [Hz | Hnz];
    cbn [negb]; [right | left]; split; auto.
Qed.

(** X12: [StopTask] either clears the task or keeps its handle. When it
    returns with [task_] null it reported [DEVICE_OK], and stopping again
    is a no-op that makes no driver call; otherwise the driver refused to
    clear the task, the translated driver error is returned and [task_]
    still holds the handle. *)
Theorem StopTask_clears_or_keeps p :
  let r := NIDAQ.driver E (NIDAQ.calls p) (NIDAQ.DAQmxClearTask (NIDAQ.task_ p)) in
  let '(err, p1) := NIDAQ.StopTask E p in
  (NIDAQ.task_ p1 = 0 /\ err = NIDAQ.DEVICE_OK E /\
   NIDAQ.StopTask E p1 = (NIDAQ.DEVICE_OK E, p1)) \/
  (NIDAQ.task_ p1 = NIDAQ.task_ p /\ NIDAQ.task_ p <> 0 /\
   NIDAQ.nierr r <> 0 /\ err = NIDAQ.TranslateNIError E (NIDAQ.nierr r) /\
   NIDAQ.calls p1 = NIDAQ.calls p ++ [NIDAQ.DAQmxClearTask (NIDAQ.task_ p)]).
Proof.
  cbn zeta.
  destruct (StopTask_cases p) as [(H0 & ->) | (Hne & [(Hnz & ->) | (Hz & ->)])].
  - left. split; [exact H0 |]. split; [reflexivity |].
    unfold NIDAQ.StopTask. rewrite H0. reflexivity.
  - right. cbn. auto.
  - left. cbn. auto.
Qed.

(** X13: [Shutdown] always leaves the port uninitialised, whether or not
    the task could be cleared, so a second [Shutdown] returns [DEVICE_OK]
    without calling the driver; on a port that is not initialised it does
    nothing at all. *)
Theorem Shutdown_once p :
  let '(err, p1) := NIDAQ.Shutdown E p in
  NIDAQ.initialized_ p1 = false /\
  NIDAQ.Shutdown E p1 = (NIDAQ.DEVICE_OK E, p1) /\
  (NIDAQ.initialized_ p = false -> err = NIDAQ.DEVICE_OK E /\ p1 = p).
Proof.
  unfold NIDAQ.Shutdown at 1.
  destruct (NIDAQ.initialized_ p) eqn:Hinit; cbn [negb].
  - destruct (NIDAQ.StopTask E p) as [err p0].
    split; [reflexivity |]. split; [reflexivity | discriminate].
  - split; [exact Hinit |]. split; [| auto].
    unfold NIDAQ.Shutdown. rewrite Hinit. reflexivity.
Qed.

Ltac port_cases :=
  repeat match goal with
    | |- context [if negb (?a =? ?b) then _ else _] =>
        destruct (Z.eqb_spec a b); cbn [negb fst snd]
    | |- context [if ?a =? ?b then _ else _] =>
        destruct (Z.eqb_spec a b); cbn [negb fst snd]
    end.

Lemma create_and_write_success state p p' :
  NIDAQ.DEVICE_ERR E <> NIDAQ.DEVICE_OK E ->
  (forall n, n <> 0 -> NIDAQ.TranslateNIError E n <> NIDAQ.DEVICE_OK E) ->
  NIDAQ.create_and_write E state p = (NIDAQ.DEVICE_OK E, p') ->
  (NIDAQ.portWidth_ p = 8 \/ NIDAQ.portWidth_ p = 32) /\
  NIDAQ.task_ p' =
    NIDAQ.taskOut (NIDAQ.driver E (NIDAQ.calls p) NIDAQ.DAQmxCreateTask) /\
  NIDAQ.calls p' =
    NIDAQ.calls p ++
      [NIDAQ.DAQmxCreateTask;
       NIDAQ.DAQmxCreateDOChan (NIDAQ.task_ p') (NIDAQ.niPort_ p);
       if NIDAQ.portWidth_ p =? 8
       then NIDAQ.DAQmxWriteDigitalU8 (NIDAQ.task_ p') (state mod 2 ^ 8)
       else NIDAQ.DAQmxWriteDigitalU32 (NIDAQ.task_ p') (state mod 2 ^ 32)] /\
  list.last (NIDAQ.logged p') = Some (NIDAQ.WroteDigitalOut state).
Proof.
  intros Herr Htr.
  unfold NIDAQ.create_and_write, NIDAQ.after_write, NIDAQ.on_error, NIDAQ.daqmx.
  cbn -[Z.modulo Z.pow].
  port_cases.
  all: intros Heq; apply pair_equal_spec in Heq; destruct Heq as [He Hp].
  all: try (exfalso; first [exact (Herr He) | (eapply Htr; [| exact He]; assumption)]).
  all: subst p'; cbn -[Z.modulo Z.pow].
  all: rewrite last_snoc, <- !app_assoc; cbn [app].
  all: split; [first [left; assumption | right; assumption] | repeat split].
Qed.

(** X14: when [StartOnDemandTask] returns [DEVICE_OK] (and the error codes
    differ from [DEVICE_OK]), no sequence was running, the port is 8 or 32
    pins wide, an older task was cleared first, and a new task was created
    and given one sample, the requested state truncated to the port width;
    that task is the port's [task_]. A port of any other width, 16
    included, never gets its state written. *)
Theorem StartOnDemandTask_success state p p' :
  NIDAQ.ERR_SEQUENCE_RUNNING E <> NIDAQ.DEVICE_OK E ->
  NIDAQ.DEVICE_ERR E <> NIDAQ.DEVICE_OK E ->
  (forall n, n <> 0 -> NIDAQ.TranslateNIError E n <> NIDAQ.DEVICE_OK E) ->
  NIDAQ.StartOnDemandTask E state p = (NIDAQ.DEVICE_OK E, p') ->
  NIDAQ.sequenceRunning_ p = false /\
  (NIDAQ.portWidth_ p = 8 \/ NIDAQ.portWidth_ p = 32) /\
  exists pre,
    (NIDAQ.task_ p = 0 /\ pre = NIDAQ.calls p \/
     NIDAQ.task_ p <> 0 /\
     pre = NIDAQ.calls p ++ [NIDAQ.DAQmxClearTask (NIDAQ.task_ p)]) /\
    NIDAQ.task_ p' = NIDAQ.taskOut (NIDAQ.driver E pre NIDAQ.DAQmxCreateTask) /\
    NIDAQ.calls p' =
      pre ++ [NIDAQ.DAQmxCreateTask;
              NIDAQ.DAQmxCreateDOChan (NIDAQ.task_ p') (NIDAQ.niPort_ p);
              if NIDAQ.portWidth_ p =? 8
              then NIDAQ.DAQmxWriteDigitalU8 (NIDAQ.task_ p') (state mod 2 ^ 8)
              else NIDAQ.DAQmxWriteDigitalU32 (NIDAQ.task_ p') (state mod 2 ^ 32)] /\
    list.last (NIDAQ.logged p') = Some (NIDAQ.WroteDigitalOut state).
Proof.
  intros Hseq Herr Htr. unfold NIDAQ.StartOnDemandTask.
  destruct (NIDAQ.sequenceRunning_ p) eqn:Hrun.
  { intros Heq. apply pair_equal_spec in Heq. destruct Heq as [He _].
    contradiction. }
  intros H. split; [reflexivity |]. revert H.
  destruct (StopTask_cases p) as [(H0 & _) | (Hne & [(Hnz & HS) | (Hz & HS)])].
  - rewrite (proj2 (Z.eqb_eq _ _) H0). cbn [negb].
    rewrite Z.eqb_refl. cbn [negb]. intros H.
    destruct (create_and_write_success state p p' Herr Htr H) as (Hw & Ht & Hc & Hl).
    split; [exact Hw |]. exists (NIDAQ.calls p). auto.
  - rewrite (proj2 (Z.eqb_neq _ _) Hne). cbn [negb]. rewrite HS.
    destruct (Z.eqb_spec (NIDAQ.TranslateNIError E
                (NIDAQ.nierr (NIDAQ.driver E (NIDAQ.calls p)
                   (NIDAQ.DAQmxClearTask (NIDAQ.task_ p))))) (NIDAQ.DEVICE_OK E))
      as [Heq | _]; [exfalso; exact (Htr _ Hnz Heq) |].
    cbn [negb]. intros Heq. apply pair_equal_spec in Heq.
    destruct Heq as [He _]. exfalso. exact (Htr _ Hnz He).
  - rewrite (proj2 (Z.eqb_neq _ _) Hne). cbn [negb]. rewrite HS.
    rewrite Z.eqb_refl. cbn [negb]. intros H.
    destruct (create_and_write_success state _ p' Herr Htr H) as (Hw & Ht & Hc & Hl).
    split; [exact Hw |].
    exists (NIDAQ.calls p ++ [NIDAQ.DAQmxClearTask (NIDAQ.task_ p)]). auto.
Qed.

Lemma create_and_write_outcome state p :
  let r := NIDAQ.driver E (NIDAQ.calls p) NIDAQ.DAQmxCreateTask in
  let '(err, p') := NIDAQ.create_and_write E state p in
  (NIDAQ.nierr r <> 0 ->
   err = NIDAQ.TranslateNIError E (NIDAQ.nierr r) /\
   NIDAQ.task_ p' = NIDAQ.taskOut r /\
   NIDAQ.calls p' = NIDAQ.calls p ++ [NIDAQ.DAQmxCreateTask]) /\
  (NIDAQ.nierr r = 0 ->
   (err = NIDAQ.DEVICE_OK E /\ NIDAQ.task_ p' = NIDAQ.taskOut r /\
    list.last (NIDAQ.logged p') = Some (NIDAQ.WroteDigitalOut state)) \/
   (NIDAQ.task_ p' = 0 /\
    list.last (NIDAQ.calls p') = Some (NIDAQ.DAQmxClearTask (NIDAQ.taskOut r)) /\
    (err = NIDAQ.DEVICE_ERR E \/
     exists n, n <> 0 /\ err = NIDAQ.TranslateNIError E n))).
Proof.
  unfold NIDAQ.create_and_write, NIDAQ.after_write, NIDAQ.on_error, NIDAQ.daqmx.
  cbn -[Z.modulo Z.pow].
  port_cases.
  all: cbn -[Z.modulo Z.pow].
  all: split; [intros Hnz; try contradiction; repeat split |
               intros Hz; try contradiction].
  all: rewrite ?last_snoc.
  all: first
    [ left; repeat split; reflexivity
    | right; split; [reflexivity |]; split; [reflexivity |];
      first [left; reflexivity | right; eexists; split; [| reflexivity]; assumption] ].
Qed.

(** X15: [StartOnDemandTask] does not leak the task it creates. Started
    with no sequence running and no task, it makes no call if the driver
    fails to create the task beyond that one; and once the task is
    created, either the call succeeds and the task is the port's [task_],
    or the last thing it does with the driver is to clear that very task,
    and [task_] is null when it returns its error. *)
Theorem StartOnDemandTask_no_leak state p :
  NIDAQ.sequenceRunning_ p = false -> NIDAQ.task_ p = 0 ->
  let r := NIDAQ.driver E (NIDAQ.calls p) NIDAQ.DAQmxCreateTask in
  let '(err, p') := NIDAQ.StartOnDemandTask E state p in
  (NIDAQ.nierr r <> 0 ->
   err = NIDAQ.TranslateNIError E (NIDAQ.nierr r) /\
   NIDAQ.task_ p' = NIDAQ.taskOut r /\
   NIDAQ.calls p' = NIDAQ.calls p ++ [NIDAQ.DAQmxCreateTask]) /\
  (NIDAQ.nierr r = 0 ->
   (err = NIDAQ.DEVICE_OK E /\ NIDAQ.task_ p' = NIDAQ.taskOut r /\
    list.last (NIDAQ.logged p') = Some (NIDAQ.WroteDigitalOut state)) \/
   (NIDAQ.task_ p' = 0 /\
    list.last (NIDAQ.calls p') = Some (NIDAQ.DAQmxClearTask (NIDAQ.taskOut r)) /\
    (err = NIDAQ.DEVICE_ERR E \/
     exists n, n <> 0 /\ err = NIDAQ.TranslateNIError E n))).
Proof.
  intros Hrun H0. unfold NIDAQ.StartOnDemandTask.
  rewrite Hrun, (proj2 (Z.eqb_eq _ _) H0). cbn [negb].
  rewrite Z.eqb_refl. cbn [negb].
  exact (create_and_write_outcome state p).
Qed.

(** X16: with a task already on the port, [StartOnDemandTask] first stops
    it. If the driver refuses, the error of [StopTask] is returned, no new
    task is created and the old handle stays in [task_]; otherwise the call
    goes on exactly as it would from the port [StopTask] leaves. *)
Theorem StartOnDemandTask_replaces_task state p :
  NIDAQ.sequenceRunning_ p = false -> NIDAQ.task_ p <> 0 ->
  (forall n, n <> 0 -> NIDAQ.TranslateNIError E n <> NIDAQ.DEVICE_OK E) ->
  let '(e0, p0) := NIDAQ.StopTask E p in
  (e0 = NIDAQ.DEVICE_OK E ->
   NIDAQ.task_ p0 = 0 /\
   NIDAQ.StartOnDemandTask E state p = NIDAQ.StartOnDemandTask E state p0) /\
  (e0 <> NIDAQ.DEVICE_OK E ->
   NIDAQ.StartOnDemandTask E state p = (e0, p0) /\
   NIDAQ.task_ p0 = NIDAQ.task_ p /\
   NIDAQ.calls p0 = NIDAQ.calls p ++ [NIDAQ.DAQmxClearTask (NIDAQ.task_ p)]).
Proof.
  intros Hrun Hne Htr.
  unfold NIDAQ.StartOnDemandTask at 1 3. rewrite Hrun.
  rewrite (proj2 (Z.eqb_neq _ _) Hne). cbn [negb].
  destruct (StopTask_cases p) as [(H0 & _) | (_ & [(Hnz & HS) | (Hz & HS)])];
    [contradiction | |]; rewrite HS.
  - split; [intros He; exfalso; exact (Htr _ Hnz He) |].
    intros He. rewrite (proj2 (Z.eqb_neq _ _) He). cbn [negb].
    repeat split.
  - split; [| intros He; contradiction].
    intros _. split; [reflexivity |].
    rewrite Z.eqb_refl. cbn [negb].
    unfold NIDAQ.StartOnDemandTask. cbn [NIDAQ.sequenceRunning_ NIDAQ.LogMessage
      NIDAQ.with_task NIDAQ.daqmx NIDAQ.task_ snd].
    rewrite Hrun. cbn [Z.eqb negb]. rewrite Z.eqb_refl. reflexivity.
Qed.

(** X17: the two string properties keep one bit each. Whatever string is
    set, reading "Sequencing" back gives [g_Never] if that was the string
    and [g_UseHubSetting] otherwise, and reading "Blank on" back gives
    [g_Low] if that was the string and [g_High] otherwise: a string that
    is neither allowed value silently selects the second. The handlers
    return [DEVICE_OK] and make no driver call. *)
Theorem string_properties_set_get s p :
  (let '(e1, v1, p1) := NIDAQ.OnSequenceable E s NIDAQ.AfterSet p in
   let '(e2, v2, p2) := NIDAQ.OnSequenceable E v1 NIDAQ.BeforeGet p1 in
   e1 = NIDAQ.DEVICE_OK E /\ e2 = NIDAQ.DEVICE_OK E /\ p2 = p1 /\
   NIDAQ.calls p2 = NIDAQ.calls p /\ NIDAQ.task_ p2 = NIDAQ.task_ p /\
   v2 = (if String.eqb s (NIDAQ.g_Never E)
         then NIDAQ.g_Never E else NIDAQ.g_UseHubSetting E)) /\
  (let '(e1, v1, p1) := NIDAQ.OnBlankingTriggerDirection E s NIDAQ.AfterSet p in
   let '(e2, v2, p2) := NIDAQ.OnBlankingTriggerDirection E v1 NIDAQ.BeforeGet p1 in
   e1 = NIDAQ.DEVICE_OK E /\ e2 = NIDAQ.DEVICE_OK E /\ p2 = p1 /\
   NIDAQ.calls p2 = NIDAQ.calls p /\ NIDAQ.task_ p2 = NIDAQ.task_ p /\
   v2 = (if String.eqb s (NIDAQ.g_Low E)
         then NIDAQ.g_Low E else NIDAQ.g_High E)).
Proof.
  split.
  - cbn. repeat split.
  - unfold NIDAQ.OnBlankingTriggerDirection.
    destruct (String.eqb s (NIDAQ.g_Low E)), (NIDAQ.blankOnLow_ p) eqn:Hlow;
      cbn [Bool.eqb negb NIDAQ.blankOnLow_ NIDAQ.with_blankOnLow
           NIDAQ.calls NIDAQ.task_];
      rewrite ?Hlow; repeat split.
Qed.

End Port.

(** * The further properties at concrete inputs *)

Lemma sample_buffers d s n :
  d <> NULL -> s <> NULL -> 0 < n < 5000000 -> overlap d s n = false ->
  precondition d s n.
Proof. intros Hd Hs Hn Hov. split; try assumption. rewrite modulus_val. lia. Qed.

Lemma MemCopy_is_memcpy_witness :
  idle sample_used /\ precondition buf_d buf_s 2500000 /\
  exists w' m,
    MemCopy buf_d buf_s 2500000 sample_used = OK w' /\
    memcpy (heap sample_used) buf_d buf_s 2500000 = OK m /\
    forall a, heap w' a = m a.
Proof.
  assert (Hpre : precondition buf_d buf_s 2500000) by (apply sample_pre; lia).
  split; [exact sample_used_idle |]. split; [exact Hpre |].
  exact (MemCopy_is_memcpy sample_used buf_d buf_s 2500000 sample_used_idle Hpre).
Defined.

Lemma MemCopy_schedule_independent_witness :
  idle sample_set /\ precondition buf_d buf_s 3500000 /\
  exists w1 w2,
    MemCopy buf_d buf_s 3500000 sample_set = OK w1 /\
    MemCopy buf_d buf_s 3500000 (with_oracle [3; 1]%nat sample_set) = OK w2 /\
    (forall a, heap w1 a = heap w2 a) /\
    tasks_ w1 = tasks_ w2 /\
    usedTaskCount_ w1 = usedTaskCount_ w2.
Proof.
  assert (Hpre : precondition buf_d buf_s 3500000) by (apply sample_pre; lia).
  split; [exact sample_set_idle |]. split; [exact Hpre |].
  exact (MemCopy_schedule_independent sample_set buf_d buf_s 3500000 [3; 1]%nat
           sample_set_idle Hpre).
Defined.

Lemma MemCopy_keeps_slots_witness :
  idle sample_used /\ precondition buf_d buf_s 500000 /\
  exists w',
    MemCopy buf_d buf_s 500000 sample_used = OK w' /\
    idle w' /\
    length (tasks_ w') = length (tasks_ sample_used).
Proof.
  assert (Hpre : precondition buf_d buf_s 500000) by (apply sample_pre; lia).
  split; [exact sample_used_idle |]. split; [exact Hpre |].
  destruct (MemCopy_keeps_slots sample_used buf_d buf_s 500000 sample_used_idle Hpre)
    as (w' & HM & Hidle & Hlen & _).
  exists w'. split; [exact HM |]. split; [exact Hidle | exact Hlen].
Defined.

Lemma MemCopy_chain_witness :
  idle sample_set /\
  precondition buf_s buf_x 3000000 /\
  precondition buf_d buf_s 400000 /\
  400000 <= 3000000 /\
  exists w1 w2,
    MemCopy buf_s buf_x 3000000 sample_set = OK w1 /\
    MemCopy buf_d buf_s 400000 w1 = OK w2 /\
    forall p, 0 <= p < 400000 -> heap w2 (buf_d + p) = heap sample_set (buf_x + p).
Proof.
  assert (Hpre1 : precondition buf_s buf_x 3000000)
    by (apply sample_buffers; [discriminate | discriminate | lia | reflexivity]).
  assert (Hpre2 : precondition buf_d buf_s 400000) by (apply sample_pre; lia).
  assert (Hle : 400000 <= 3000000) by lia.
  split; [exact sample_set_idle |]. split; [exact Hpre1 |].
  split; [exact Hpre2 |]. split; [exact Hle |].
  exact (MemCopy_chain sample_set buf_x buf_s buf_d 3000000 400000
           sample_set_idle Hpre1 Hpre2 Hle).
Defined.

Lemma MemCopy_bypasses_pool_iff_witness :
  idle sample_set /\ precondition buf_d buf_s 1000000 /\
  exists w',
    MemCopy buf_d buf_s 1000000 sample_set = OK w' /\
    (trace w' = trace sample_set <->
     1000000 < 1000000 \/ length (tasks_ sample_set) = 1%nat).
Proof.
  assert (Hpre : precondition buf_d buf_s 1000000) by (apply sample_pre; lia).
  split; [exact sample_set_idle |]. split; [exact Hpre |].
  exact (MemCopy_bypasses_pool_iff sample_set buf_d buf_s 1000000 sample_set_idle Hpre).
Defined.

Lemma used_count_monotone_witness :
  exists w1 w1',
    0 <= 1500000 <= 3500000 /\ 3500000 < SizeT.modulus /\
    SetUp buf_d buf_s 1500000 sample_set = OK w1 /\
    SetUp buf_s buf_x 3500000 sample_set = OK w1' /\
    usedTaskCount_ w1 <= usedTaskCount_ w1'.
Proof.
  assert (Hb : 0 <= 1500000 <= 3500000) by lia.
  assert (Hb' : 3500000 < SizeT.modulus) by (rewrite modulus_val; lia).
  eexists _, _. split; [exact Hb |]. split; [exact Hb' |].
  assert (HS : SetUp buf_d buf_s 1500000 sample_set =
               OK (with_tasks (ATask.SetUp buf_d buf_s 1500000 2 <$> tasks_ sample_set)
                     (with_usedTaskCount 2 sample_set))) by reflexivity.
  assert (HS' : SetUp buf_s buf_x 3500000 sample_set =
               OK (with_tasks (ATask.SetUp buf_s buf_x 3500000 4 <$> tasks_ sample_set)
                     (with_usedTaskCount 4 sample_set))) by reflexivity.
  split; [exact HS |]. split; [exact HS' |].
  exact (proj1 (used_count_monotone sample_set buf_d buf_s 1500000 _
                  buf_s buf_x 3500000 _ Hb Hb' HS HS')).
Defined.

Lemma chunk_sizes_balanced_witness :
  exists w1 a,
    idle sample_set /\ 0 < 3500003 < SizeT.modulus /\
    SetUp buf_d buf_s 3500003 sample_set = OK w1 /\
    usedTaskCount_ w1 <> 1 /\
    tasks_ w1 !! 3%nat = Some a /\
    Z.of_nat 3 < usedTaskCount_ w1 /\
    500000 <= ATask.chunkBytes a /\
    (3500003 / 1000000 < Z.of_nat (length (tasks_ sample_set)) ->
     ATask.chunkBytes a < 1000000 + usedTaskCount_ w1).
Proof.
  assert (Hb : 0 < 3500003 < SizeT.modulus) by (rewrite modulus_val; lia).
  assert (HS : SetUp buf_d buf_s 3500003 sample_set =
               OK (with_tasks (ATask.SetUp buf_d buf_s 3500003 4 <$> tasks_ sample_set)
                     (with_usedTaskCount 4 sample_set))) by reflexivity.
  assert (Hne : usedTaskCount_
                  (with_tasks (ATask.SetUp buf_d buf_s 3500003 4 <$> tasks_ sample_set)
                     (with_usedTaskCount 4 sample_set)) <> 1) by discriminate.
  assert (Ha : tasks_ (with_tasks (ATask.SetUp buf_d buf_s 3500003 4 <$> tasks_ sample_set)
                         (with_usedTaskCount 4 sample_set)) !! 3%nat =
               Some (sample_task 3)) by reflexivity.
  assert (Hi : Z.of_nat 3 <
               usedTaskCount_
                 (with_tasks (ATask.SetUp buf_d buf_s 3500003 4 <$> tasks_ sample_set)
                    (with_usedTaskCount 4 sample_set))) by reflexivity.
  eexists _, _. split; [exact sample_set_idle |]. split; [exact Hb |].
  split; [exact HS |]. split; [exact Hne |]. split; [exact Ha |].
  split; [exact Hi |].
  destruct (chunk_sizes_balanced sample_set buf_d buf_s 3500003 _ 3%nat _
              sample_set_idle Hb HS Hne Ha Hi) as (H500 & _ & Hcap).
  split; [exact H500 | exact Hcap].
Defined.

Lemma MemCopy_without_slots_witness :
  tasks_ (new 0 sample_heap []) = [] /\
  0 <= semaphore_ (new 0 sample_heap []) /\
  buf_d <> NULL /\ buf_s <> NULL /\ 0 < 3500000 < SizeT.modulus /\
  exists w',
    MemCopy buf_d buf_s 3500000 (new 0 sample_heap []) = OK w' /\
    heap w' = heap (new 0 sample_heap []) /\
    usedTaskCount_ w' = 0.
Proof.
  assert (Hnil : tasks_ (new 0 sample_heap []) = []) by reflexivity.
  assert (Hsem : 0 <= semaphore_ (new 0 sample_heap [])) by (cbn; lia).
  assert (Hd : buf_d <> NULL) by discriminate.
  assert (Hs : buf_s <> NULL) by discriminate.
  assert (Hb : 0 < 3500000 < SizeT.modulus) by (rewrite modulus_val; lia).
  repeat (split; [assumption |]).
  destruct (MemCopy_without_slots (new 0 sample_heap []) buf_d buf_s 3500000
              Hnil Hsem Hd Hs Hb) as (_ & w' & HM & Hheap & Hused & _).
  exists w'. repeat split; assumption.
Defined.

Lemma sample_task_configured i : configured 3500003 4 i (sample_task i).
Proof. repeat split. Qed.

Lemma task_copies_own_chunk_witness :
  configured 3500003 4 3 (sample_task 3) /\
  0 <= 3500003 < SizeT.modulus /\ 0 <= 3 < 4 /\ 4 < SizeT.modulus /\
  overlap buf_d buf_s 3500003 = false /\
  exists m',
    ATask.Execute (sample_task 3) sample_heap = OK m' /\
    (forall p, covers (sample_task 3) p ->
       0 <= p < 3500003 /\ m' (buf_d + p) = sample_heap (buf_s + p)) /\
    (forall p, 0 <= p < 3500003 -> m' (buf_s + p) = sample_heap (buf_s + p)).
Proof.
  assert (Hb : 0 <= 3500003 < SizeT.modulus) by (rewrite modulus_val; lia).
  assert (Hi : 0 <= 3 < 4) by lia.
  assert (Hu : 4 < SizeT.modulus) by (rewrite modulus_val; lia).
  assert (Hov : overlap buf_d buf_s 3500003 = false) by reflexivity.
  split; [exact (sample_task_configured 3) |].
  split; [exact Hb |]. split; [exact Hi |]. split; [exact Hu |]. split; [exact Hov |].
  destruct (task_copies_own_chunk buf_d buf_s 3500003 4 3 (sample_task 3) sample_heap
              (sample_task_configured 3) eq_refl eq_refl Hb Hi Hu Hov)
    as (m' & HE & Hin & _ & Hsrc).
  exists m'. split; [exact HE |]. split; [exact Hin | exact Hsrc].
Defined.

Lemma tasks_commute_witness :
  configured 3500003 4 0 (sample_task 0) /\
  configured 3500003 4 3 (sample_task 3) /\
  0 <= 3500003 < SizeT.modulus /\ 0 <= 0 < 4 /\ 0 <= 3 < 4 /\ 4 < SizeT.modulus /\
  overlap buf_d buf_s 3500003 = false /\
  exists ma mab mb mba,
    ATask.Execute (sample_task 0) sample_heap = OK ma /\
    ATask.Execute (sample_task 3) ma = OK mab /\
    ATask.Execute (sample_task 3) sample_heap = OK mb /\
    ATask.Execute (sample_task 0) mb = OK mba /\
    forall x, mab x = mba x.
Proof.
  assert (Hb : 0 <= 3500003 < SizeT.modulus) by (rewrite modulus_val; lia).
  assert (Hi : 0 <= 0 < 4) by lia.
  assert (Hj : 0 <= 3 < 4) by lia.
  assert (Hu : 4 < SizeT.modulus) by (rewrite modulus_val; lia).
  assert (Hov : overlap buf_d buf_s 3500003 = false) by reflexivity.
  split; [exact (sample_task_configured 0) |].
  split; [exact (sample_task_configured 3) |].
  split; [exact Hb |]. split; [exact Hi |]. split; [exact Hj |].
  split; [exact Hu |]. split; [exact Hov |].
  exact (tasks_commute buf_d buf_s 3500003 4 0 3 (sample_task 0) (sample_task 3)
           sample_heap (sample_task_configured 0) eq_refl eq_refl
           (sample_task_configured 3) eq_refl eq_refl Hb Hi Hj Hu Hov).
Defined.

Lemma sample_env_translate drv n :
  n <> 0 ->
  NIDAQ.TranslateNIError (sample_env drv) n <> NIDAQ.DEVICE_OK (sample_env drv).
Proof.
  intros _. cbn [sample_env NIDAQ.TranslateNIError NIDAQ.DEVICE_OK].
  pose proof (Z.mod_pos_bound (Z.abs n) 1000 ltac:(lia)). lia.
Qed.

Lemma StartOnDemandTask_success_witness :
  let E := sample_env good_driver in
  let p' := snd (NIDAQ.StartOnDemandTask E 300 (sample_port 8 5)) in
  NIDAQ.ERR_SEQUENCE_RUNNING E <> NIDAQ.DEVICE_OK E /\
  NIDAQ.DEVICE_ERR E <> NIDAQ.DEVICE_OK E /\
  (forall n, n <> 0 -> NIDAQ.TranslateNIError E n <> NIDAQ.DEVICE_OK E) /\
  NIDAQ.StartOnDemandTask E 300 (sample_port 8 5) = (NIDAQ.DEVICE_OK E, p') /\
  NIDAQ.sequenceRunning_ (sample_port 8 5) = false /\
  (NIDAQ.portWidth_ (sample_port 8 5) = 8 \/ NIDAQ.portWidth_ (sample_port 8 5) = 32) /\
  NIDAQ.calls p' =
    [NIDAQ.DAQmxClearTask 5; NIDAQ.DAQmxCreateTask;
     NIDAQ.DAQmxCreateDOChan 7 "Dev1/port0"%string;
     NIDAQ.DAQmxWriteDigitalU8 7 44].
Proof.
  intros E p'.
  assert (H1 : NIDAQ.ERR_SEQUENCE_RUNNING E <> NIDAQ.DEVICE_OK E) by discriminate.
  assert (H2 : NIDAQ.DEVICE_ERR E <> NIDAQ.DEVICE_OK E) by discriminate.
  assert (H3 : forall n, n <> 0 -> NIDAQ.TranslateNIError E n <> NIDAQ.DEVICE_OK E)
    by exact (sample_env_translate good_driver).
  assert (H4 : NIDAQ.StartOnDemandTask E 300 (sample_port 8 5) = (NIDAQ.DEVICE_OK E, p'))
    by (vm_compute; reflexivity).
  split; [exact H1 |]. split; [exact H2 |]. split; [exact H3 |]. split; [exact H4 |].
  destruct (StartOnDemandTask_success E 300 (sample_port 8 5) p' H1 H2 H3 H4)
    as (Hrun & Hw & _).
  split; [exact Hrun |]. split; [exact Hw | vm_compute; reflexivity].
Defined.

Lemma StartOnDemandTask_no_leak_witness :
  let E := sample_env bad_writer in
  let p := sample_port 32 0 in
  let r := NIDAQ.driver E (NIDAQ.calls p) NIDAQ.DAQmxCreateTask in
  let p' := snd (NIDAQ.StartOnDemandTask E 300 p) in
  NIDAQ.sequenceRunning_ p = false /\ NIDAQ.task_ p = 0 /\ NIDAQ.nierr r = 0 /\
  NIDAQ.task_ p' = 0 /\
  list.last (NIDAQ.calls p') = Some (NIDAQ.DAQmxClearTask (NIDAQ.taskOut r)).
Proof.
  intros E p r p'.
  assert (Hrun : NIDAQ.sequenceRunning_ p = false) by reflexivity.
  assert (H0 : NIDAQ.task_ p = 0) by reflexivity.
  assert (Hz : NIDAQ.nierr r = 0) by reflexivity.
  split; [exact Hrun |]. split; [exact H0 |]. split; [exact Hz |].
  pose proof (StartOnDemandTask_no_leak E 300 p Hrun H0) as H.
  cbn zeta in H. fold r in H.
  destruct (NIDAQ.StartOnDemandTask E 300 p) as [err q] eqn:Hq.
  destruct H as (_ & H). destruct (H Hz) as [(Herr & _) | (Ht & Hl & _)].
  - exfalso. vm_compute in Hq. injection Hq as He _. rewrite <- He in Herr.
    discriminate.
  - unfold p'. rewrite ?Hq. cbn [snd]. split; assumption.
Defined.

Lemma StartOnDemandTask_replaces_task_witness :
  let E := sample_env good_driver in
  let p := sample_port 32 5 in
  NIDAQ.sequenceRunning_ p = false /\ NIDAQ.task_ p <> 0 /\
  (forall n, n <> 0 -> NIDAQ.TranslateNIError E n <> NIDAQ.DEVICE_OK E) /\
  NIDAQ.StartOnDemandTask E 300 p =
    NIDAQ.StartOnDemandTask E 300 (snd (NIDAQ.StopTask E p)).
Proof.
  intros E p.
  assert (Hrun : NIDAQ.sequenceRunning_ p = false) by reflexivity.
  assert (Hne : NIDAQ.task_ p <> 0) by discriminate.
  assert (H3 : forall n, n <> 0 -> NIDAQ.TranslateNIError E n <> NIDAQ.DEVICE_OK E)
    by exact (sample_env_translate good_driver).
  split; [exact Hrun |]. split; [exact Hne |]. split; [exact H3 |].
  pose proof (StartOnDemandTask_replaces_task E 300 p Hrun Hne H3) as H.
  destruct (NIDAQ.StopTask E p) as [e0 p0] eqn:HS.
  destruct H as (Hok & _). cbn [snd].
  apply Hok. vm_compute in HS. injection HS as He _. symmetry. exact He.
Defined.

(** ** Runs of the port *)

(** On a 16-pin port the driver accepts everything, and yet the state is
    not written: the task is created, given its channel and cleared, and
    the call returns [DEVICE_ERR]. *)
Example sixteen_pin_port :
  let '(err, p') :=
    NIDAQ.StartOnDemandTask (sample_env good_driver) 300 (sample_port 16 0) in
  err = 1 /\ NIDAQ.task_ p' = 0 /\
  NIDAQ.calls p' =
    [NIDAQ.DAQmxCreateTask; NIDAQ.DAQmxCreateDOChan 7 "Dev1/port0"%string;
     NIDAQ.DAQmxClearTask 7] /\
  list.last (NIDAQ.logged p') = Some (NIDAQ.InvalidPinsPerPort 16).
Proof. vm_compute. repeat split. Qed.

(** A refused write: the translated driver error, and the task cleared. *)
Example refused_write :
  let '(err, p') :=
    NIDAQ.StartOnDemandTask (sample_env bad_writer) 300 (sample_port 8 0) in
  err = 21088 /\ NIDAQ.task_ p' = 0 /\
  NIDAQ.calls p' =
    [NIDAQ.DAQmxCreateTask; NIDAQ.DAQmxCreateDOChan 7 "Dev1/port0"%string;
     NIDAQ.DAQmxWriteDigitalU8 7 44; NIDAQ.DAQmxClearTask 7].
Proof. vm_compute. repeat split. Qed.
